(** * pretalx-downstream: the upstream schedule import, embedded in Rocq

    A shallow embedding of [pretalx_downstream/signals.py] (the periodic
    trigger) and [pretalx_downstream/tasks.py] (the refresh task, the frab
    import and the per-talk merge).

    - Python values that the code compares or converts are the type [pyval].
    - The database is the record [Store]; one list per table, rows carry
      their primary key. Settings are a [gmap] from names to values.
    - Code that raises or writes to the database lives in the monad [M]:
      a store transformer that returns either an exception or a value.
      [atomic] is [transaction.atomic]: the store is restored on an
      exception.
    - What pretalx, Django, requests, ElementTree and dateutil do behind
      the calls of the source is either written out where the source relies
      on a documented behaviour, or a field of the record [Env]. *)

From Stdlib Require Import ZArith String Ascii Bool Lia.
From stdpp Require Import base gmap strings option list.

Open Scope Z_scope.

(** ** Python values and exceptions *)

Module Py.

(** The values that reach a comparison, a truth test or [int()]. A
    [hashlib] object is identified by the object itself: the class has no
    [__eq__], so [==] is identity. *)
Inductive pyval : Type :=
| PyNone
| PyBool (b : bool)
| PyInt (z : Z)
| PyStr (s : string)
| PyDatetime (t : Z)                 (* microseconds since the epoch, UTC *)
| PyHash (oid : nat) (fed : string)  (* hashlib.sha256(), bytes fed so far *).

#[export] Instance pyval_eq_dec : EqDecision pyval.
Proof. solve_decision. Defined.

Inductive exn : Type :=
| AttributeError
| KeyError
| TypeError
| ValueError
| OverflowError
| UnicodeDecodeError
| ParseError
| DoesNotExist
| MultipleObjectsReturned
| IntegrityError
| NoUpstreamUrl                            (* tasks.py line 26 *)
| CouldNotRetrieve (status : Z)            (* tasks.py lines 30-34 *)
| ReleaseFailed (event_name : string) (version : option string)
                                           (* tasks.py lines 76-78 *)
| ExternalError (msg : string).

#[export] Instance exn_eq_dec : EqDecision exn.
Proof. solve_decision. Defined.

Definition result (A : Type) : Type := exn + A.

Definition ok {A} (a : A) : result A := inr a.
Definition raise {A} (e : exn) : result A := inl e.

Definition rbind {A B} (r : result A) (k : A → result B) : result B :=
  match r with
  | inl e => inl e
  | inr a => k a
  end.

(** [bool(v)] *)
Definition truthy (v : pyval) : bool :=
  match v with
  | PyNone => false
  | PyBool b => b
  | PyInt z => negb (z =? 0)
  | PyStr s => negb (bool_decide (s = ""))
  | PyDatetime _ => true
  | PyHash _ _ => true
  end.

(** [a or b] *)
Definition py_or (a b : pyval) : pyval := if truthy a then a else b.

(** [a == b]. [bool] is a subclass of [int]; a hash object equals only
    itself; values of unrelated types are unequal. *)
Definition py_eq (a b : pyval) : bool :=
  match a, b with
  | PyNone, PyNone => true
  | PyBool x, PyBool y => bool_decide (x = y)
  | PyInt x, PyInt y => x =? y
  | PyBool x, PyInt y | PyInt y, PyBool x => (if x then 1 else 0) =? y
  | PyStr x, PyStr y => bool_decide (x = y)
  | PyDatetime x, PyDatetime y => x =? y
  | PyHash i _, PyHash j _ => bool_decide (i = j)
  | _, _ => false
  end.

(** *** Strings *)

Definition is_upper (c : ascii) : bool :=
  (65 <=? nat_of_ascii c)%nat && (nat_of_ascii c <=? 90)%nat.

Definition lower_ascii (c : ascii) : ascii :=
  if is_upper c then ascii_of_nat (nat_of_ascii c + 32) else c.

Fixpoint lower (s : string) : string :=
  match s with
  | EmptyString => EmptyString
  | String c r => String (lower_ascii c) (lower r)
  end.

(** [s[:n]] *)
Fixpoint str_take (n : nat) (s : string) : string :=
  match n, s with
  | O, _ => EmptyString
  | _, EmptyString => EmptyString
  | S k, String c r => String c (str_take k r)
  end.

Fixpoint is_prefix (p s : string) : bool :=
  match p, s with
  | EmptyString, _ => true
  | String _ _, EmptyString => false
  | String a p', String b s' => bool_decide (a = b) && is_prefix p' s'
  end.

(** [p in s] *)
Fixpoint contains (p s : string) : bool :=
  is_prefix p s ||
  match s with
  | EmptyString => false
  | String _ s' => contains p s'
  end.

(** [s.split(c)] for a one-character separator. *)
Fixpoint split_on (c : ascii) (s : string) : list string :=
  match s with
  | EmptyString => [EmptyString]
  | String a r =>
      if bool_decide (a = c) then EmptyString :: split_on c r
      else match split_on c r with
           | [] => [String a EmptyString]
           | w :: ws => String a w :: ws
           end
  end.

(** *** [int()]

    [int(str)] accepts optional surrounding white space, an optional sign
    and decimal digits, single underscores allowed between digits; anything
    else is a [ValueError]. (Digits outside ASCII are not modelled.) *)

Definition is_space (c : ascii) : bool :=
  let n := nat_of_ascii c in
  (n =? 32)%nat || ((9 <=? n)%nat && (n <=? 13)%nat) ||
  ((28 <=? n)%nat && (n <=? 31)%nat).

Definition digit_of (c : ascii) : option Z :=
  let n := nat_of_ascii c in
  if (48 <=? n)%nat && (n <=? 57)%nat then Some (Z.of_nat (n - 48)) else None.

Fixpoint lstrip (s : string) : string :=
  match s with
  | String c r => if is_space c then lstrip r else s
  | EmptyString => EmptyString
  end.

(** White space at the end: [true] when only white space remains. *)
Fixpoint all_space (s : string) : bool :=
  match s with
  | EmptyString => true
  | String c r => is_space c && all_space r
  end.

(** Digits after at least one digit has been read: [acc] is the value so
    far, [us] tells that the previous character was an underscore. *)
Fixpoint digits_tail (acc : Z) (us : bool) (s : string) : option Z :=
  match s with
  | EmptyString => if us then None else Some acc
  | String c r =>
      match digit_of c with
      | Some d => digits_tail (10 * acc + d) false r
      | None =>
          if bool_decide (c = "_"%char) then
            if us then None else digits_tail acc true r
          else if us then None
          else if all_space s then Some acc else None
      end
  end.

Definition digits (s : string) : option Z :=
  match s with
  | EmptyString => None
  | String c r =>
      match digit_of c with
      | Some d => digits_tail d false r
      | None => None
      end
  end.

Definition int_of_str (s : string) : result Z :=
  match lstrip s with
  | String "-" r => match digits r with
                    | Some n => ok (- n)
                    | None => raise ValueError
                    end
  | String "+" r => match digits r with
                    | Some n => ok n
                    | None => raise ValueError
                    end
  | r => match digits r with
         | Some n => ok n
         | None => raise ValueError
         end
  end.

Definition py_int (v : pyval) : result Z :=
  match v with
  | PyInt z => ok z
  | PyBool b => ok (if b then 1 else 0)
  | PyStr s => int_of_str s
  | PyNone | PyDatetime _ | PyHash _ _ => raise TypeError
  end.

(** *** [timedelta] and dates

    Times are counted in microseconds. A [timedelta] holds between
    -999999999 and 999999999 days; outside, the constructor raises
    [OverflowError]. *)

Definition us_per_minute : Z := 60000000.
Definition us_per_day : Z := 86400000000.

Definition timedelta_us (us : Z) : result Z :=
  if (-999999999 <=? us / us_per_day) && (us / us_per_day <=? 999999999)
  then ok us else raise OverflowError.

Definition timedelta_minutes (minutes : Z) : result Z :=
  timedelta_us (minutes * us_per_minute).

(** [datetime.date()], as a day number. *)
Definition date_of (t : Z) : Z := t / us_per_day.

End Py.
Export Py.

(** ** The document: [xml.etree.ElementTree] elements *)

Module ET.

#[warnings="-register-all"] Inductive element : Type :=
| Element (tag : string) (attrib : list (string * string))
          (text : option string) (children : list element).

Definition tag_of (e : element) : string :=
  let 'Element t _ _ _ := e in t.
Definition attrib_of (e : element) : list (string * string) :=
  let 'Element _ a _ _ := e in a.
Definition text (e : element) : option string :=
  let 'Element _ _ x _ := e in x.
Definition children (e : element) : list element :=
  let 'Element _ _ _ c := e in c.

(** [e.findall(tag)]: the direct children with that tag, in document order. *)
Definition findall (tag : string) (e : element) : list element :=
  filter (λ c, tag_of c = tag) (children e).

(** [e.find(tag)]: the first of them, or [None]. *)
Definition find (tag : string) (e : element) : option element :=
  head (findall tag e).

(** [x.text] where [x] may be [None]. *)
Definition text_of (x : option element) : result (option string) :=
  match x with
  | None => raise AttributeError
  | Some e => ok (text e)
  end.

(** [x.find(tag)] where [x] may be [None]. *)
Definition find_of (tag : string) (x : option element) : result (option element) :=
  match x with
  | None => raise AttributeError
  | Some e => ok (find tag e)
  end.

(** [e.attrib[key]] *)
Fixpoint assoc (key : string) (l : list (string * string)) : option string :=
  match l with
  | [] => None
  | (k, v) :: r => if bool_decide (k = key) then Some v else assoc key r
  end.

Definition attrib (key : string) (e : element) : result string :=
  match assoc key (attrib_of e) with
  | Some v => ok v
  | None => raise KeyError
  end.

End ET.

(** Text that may be [None], as a Python value. *)
Definition of_text (x : option string) : pyval :=
  match x with
  | None => PyNone
  | Some s => PyStr s
  end.

(** [a + b] on [str]; [None] on either side is a [TypeError]. *)
Definition str_add (a b : option string) : result (option string) :=
  match a, b with
  | Some x, Some y => ok (Some (x +:+ y))
  | _, _ => raise TypeError
  end.

(** ** The data model: one record per table row *)

Module Model.

(** [{'old': ..., 'new': ...}] *)
Record change : Type := Change { old : pyval; new : pyval }.

#[export] Instance change_eq_dec : EqDecision change.
Proof. solve_decision. Defined.

(** The change set: talk code -> field name -> change. *)
Abbreviation change_map := (gmap string (gmap string change)).

Record Event : Type := {
  ev_pk : nat;
  ev_slug : string;
  ev_name : string;
  ev_date_from : Z;      (* day number *)
  ev_date_to : Z;
}.

Record Room : Type := {
  room_pk : nat;
  room_event : nat;
  room_name : string;
}.

Record SubmissionType : Type := {
  st_pk : nat;
  st_event : nat;
  st_name : string;
  st_default_duration : Z;   (* minutes *)
}.

Record Track : Type := {
  tr_pk : nat;
  tr_event : nat;
  tr_name : string;
}.

Record Submission : Type := {
  sub_pk : nat;
  sub_event : nat;
  sub_code : string;
  sub_submission_type : nat;
  sub_track : option nat;
  sub_title : pyval;
  sub_description : pyval;
  sub_abstract : pyval;
  sub_content_locale : pyval;
  sub_do_not_record : pyval;
  sub_speakers : gset nat;
}.

Record User : Type := {
  user_pk : nat;
  user_name : string;
  user_email : string;
}.

Record SpeakerProfile : Type := {
  sp_user : nat;
  sp_event : nat;
}.

Record TalkSlot : Type := {
  slot_pk : nat;
  slot_submission : nat;
  slot_schedule : nat;
  slot_room : option nat;
  slot_is_visible : bool;
  slot_start : option Z;
  slot_end : option Z;
}.

Record Schedule : Type := {
  sched_pk : nat;
  sched_event : nat;
  sched_version : option string;   (* [None]: the working schedule *)
  sched_published : option Z;
}.

Record UpstreamResult : Type := {
  ur_event : nat;
  ur_schedule : option nat;
  ur_changes : change_map;         (* what [json.dumps] is given *)
  ur_content : string;
  ur_timestamp : Z;                (* auto_now_add *)
}.

Record Store : Type := {
  events : list Event;
  settings : gmap nat (gmap string pyval);   (* event pk -> name -> value *)
  rooms : list Room;
  submission_types : list SubmissionType;
  tracks : list Track;
  submissions : list Submission;
  users : list User;
  speaker_profiles : list SpeakerProfile;
  slots : list TalkSlot;
  schedules : list Schedule;
  upstream_results : list UpstreamResult;
}.

Definition with_events (f : list Event → list Event) (s : Store) : Store :=
  {| events := f (events s); settings := settings s; rooms := rooms s;
     submission_types := submission_types s; tracks := tracks s;
     submissions := submissions s; users := users s;
     speaker_profiles := speaker_profiles s; slots := slots s;
     schedules := schedules s; upstream_results := upstream_results s |}.

Definition with_settings
    (f : gmap nat (gmap string pyval) → gmap nat (gmap string pyval))
    (s : Store) : Store :=
  {| events := events s; settings := f (settings s); rooms := rooms s;
     submission_types := submission_types s; tracks := tracks s;
     submissions := submissions s; users := users s;
     speaker_profiles := speaker_profiles s; slots := slots s;
     schedules := schedules s; upstream_results := upstream_results s |}.

Definition with_rooms (f : list Room → list Room) (s : Store) : Store :=
  {| events := events s; settings := settings s; rooms := f (rooms s);
     submission_types := submission_types s; tracks := tracks s;
     submissions := submissions s; users := users s;
     speaker_profiles := speaker_profiles s; slots := slots s;
     schedules := schedules s; upstream_results := upstream_results s |}.

Definition with_submission_types
    (f : list SubmissionType → list SubmissionType) (s : Store) : Store :=
  {| events := events s; settings := settings s; rooms := rooms s;
     submission_types := f (submission_types s); tracks := tracks s;
     submissions := submissions s; users := users s;
     speaker_profiles := speaker_profiles s; slots := slots s;
     schedules := schedules s; upstream_results := upstream_results s |}.

Definition with_tracks (f : list Track → list Track) (s : Store) : Store :=
  {| events := events s; settings := settings s; rooms := rooms s;
     submission_types := submission_types s; tracks := f (tracks s);
     submissions := submissions s; users := users s;
     speaker_profiles := speaker_profiles s; slots := slots s;
     schedules := schedules s; upstream_results := upstream_results s |}.

Definition with_submissions
    (f : list Submission → list Submission) (s : Store) : Store :=
  {| events := events s; settings := settings s; rooms := rooms s;
     submission_types := submission_types s; tracks := tracks s;
     submissions := f (submissions s); users := users s;
     speaker_profiles := speaker_profiles s; slots := slots s;
     schedules := schedules s; upstream_results := upstream_results s |}.

Definition with_users (f : list User → list User) (s : Store) : Store :=
  {| events := events s; settings := settings s; rooms := rooms s;
     submission_types := submission_types s; tracks := tracks s;
     submissions := submissions s; users := f (users s);
     speaker_profiles := speaker_profiles s; slots := slots s;
     schedules := schedules s; upstream_results := upstream_results s |}.

Definition with_speaker_profiles
    (f : list SpeakerProfile → list SpeakerProfile) (s : Store) : Store :=
  {| events := events s; settings := settings s; rooms := rooms s;
     submission_types := submission_types s; tracks := tracks s;
     submissions := submissions s; users := users s;
     speaker_profiles := f (speaker_profiles s); slots := slots s;
     schedules := schedules s; upstream_results := upstream_results s |}.

Definition with_slots (f : list TalkSlot → list TalkSlot) (s : Store) : Store :=
  {| events := events s; settings := settings s; rooms := rooms s;
     submission_types := submission_types s; tracks := tracks s;
     submissions := submissions s; users := users s;
     speaker_profiles := speaker_profiles s; slots := f (slots s);
     schedules := schedules s; upstream_results := upstream_results s |}.

Definition with_schedules (f : list Schedule → list Schedule) (s : Store) : Store :=
  {| events := events s; settings := settings s; rooms := rooms s;
     submission_types := submission_types s; tracks := tracks s;
     submissions := submissions s; users := users s;
     speaker_profiles := speaker_profiles s; slots := slots s;
     schedules := f (schedules s); upstream_results := upstream_results s |}.

Definition with_upstream_results
    (f : list UpstreamResult → list UpstreamResult) (s : Store) : Store :=
  {| events := events s; settings := settings s; rooms := rooms s;
     submission_types := submission_types s; tracks := tracks s;
     submissions := submissions s; users := users s;
     speaker_profiles := speaker_profiles s; slots := slots s;
     schedules := schedules s; upstream_results := f (upstream_results s) |}.

(** A primary key not yet used in the table. *)
Definition next_pk (used : list nat) : nat := S (foldr Nat.max 0%nat used).

(** [event.settings.<name>]: the stored value, [None] when unset. *)
Definition get_setting (s : Store) (ev : nat) (name : string) : pyval :=
  default PyNone (default ∅ (settings s !! ev) !! name).

(** [event.settings.<name> = v] *)
Definition set_setting (ev : nat) (name : string) (v : pyval) (s : Store) : Store :=
  with_settings (λ m, <[ev := <[name := v]> (default ∅ (m !! ev))]> m) s.

End Model.
Export Model.

(** ** The monad of database code *)

Module Monad.

Definition M (A : Type) : Type := Store → result A * Store.

Definition ret {A} (a : A) : M A := λ s, (inr a, s).
Definition throw {A} (e : exn) : M A := λ s, (inl e, s).
Definition lift {A} (r : result A) : M A := λ s, (r, s).
Definition gets {A} (f : Store → A) : M A := λ s, (inr (f s), s).
Definition modify (f : Store → Store) : M unit := λ s, (inr tt, f s).

Definition bind {A B} (c : M A) (k : A → M B) : M B :=
  λ s, match c s with
       | (inl e, s') => (inl e, s')
       | (inr a, s') => k a s'
       end.

(** [@transaction.atomic()]: an exception leaving the block rolls the
    database back to where the block was entered, and goes on up. *)
Definition atomic {A} (c : M A) : M A :=
  λ s, match c s with
       | (inl e, _) => (inl e, s)
       | (inr a, s') => (inr a, s')
       end.

(** [try: c / except Exception: raise e]. The database is not touched by
    the handler. *)
Definition reraise_as {A} (e : exn) (c : M A) : M A :=
  λ s, match c s with
       | (inl _, s') => (inl e, s')
       | (inr a, s') => (inr a, s')
       end.

End Monad.
Export Monad.

Notation "'let!' x ':=' c 'in' k" := (bind c (λ x, k))
  (at level 10, x pattern, c at level 100, k at level 200).
Notation "'let?' x ':=' c 'in' k" := (rbind c (λ x, k))
  (at level 10, x pattern, c at level 100, k at level 200).

(** ** signals.py: the periodic trigger *)

Module Signals.

(** Lines 18-22: [interval = ... or 5], then [int(interval)] with
    [TypeError] (and nothing else) replaced by 5. *)
Definition interval_minutes (configured : pyval) : result Z :=
  let interval := py_or configured (PyInt 5) in
  match py_int interval with
  | inl TypeError => ok 5
  | r => r
  end.

(** [now() - last_pulled]: defined between two datetimes only. *)
Definition since (now : Z) (last_pulled : pyval) : result Z :=
  match last_pulled with
  | PyDatetime t => ok (now - t)
  | _ => raise TypeError
  end.

(** Lines 17-26, the body of the loop for one event: the slug to hand to
    [task_refresh_upstream_schedule.apply_async], if any. *)
Definition refresh_event (now : Z) (s : Store) (event : Event) : result (option string) :=
  if truthy (get_setting s (ev_pk event) "downstream_upstream_url") then
    let? interval := interval_minutes (get_setting s (ev_pk event) "downstream_interval") in
    let? interval := timedelta_minutes interval in
    let last_pulled := get_setting s (ev_pk event) "downstream_last_sync" in
    if negb (truthy last_pulled) then ok (Some (ev_slug event))
    else
      let? elapsed := since now last_pulled in
      if elapsed >? interval then ok (Some (ev_slug event)) else ok None
  else ok None.

(** Line 16, the loop over [Event.objects.all()]: the tasks queued, in
    order, and the exception that ended the loop, if one did. The clock is
    read as [now] throughout the call. *)
Fixpoint refresh_events (now : Z) (s : Store) (evs : list Event)
    : list string * option exn :=
  match evs with
  | [] => ([], None)
  | event :: rest =>
      match refresh_event now s event with
      | inl e => ([], Some e)
      | inr queued =>
          let '(more, e) := refresh_events now s rest in
          (match queued with Some slug => slug :: more | None => more end, e)
      end
  end.

Definition refresh_upstream_schedule (now : Z) (s : Store) : list string * option exn :=
  refresh_events now s (events s).

(** Lines 29-43: the entry offered to the settings navigation.
    [reverse] is Django's URL reversal of the named view for the event. *)
Record nav_entry : Type := {
  nav_label : string;
  nav_url : string;
  nav_active : bool;
}.

Definition settings_view : string := "plugins:pretalx_downstream:settings".

Definition register_upstream_settings (reverse : string → string → string)
    (has_perm : bool) (event_slug : string) (url_name : pyval) : list nav_entry :=
  if negb has_perm then []
  else [ {| nav_label := "Upstream";
            nav_url := reverse settings_view event_slug;
            nav_active := py_eq url_name (PyStr settings_view) |} ].

End Signals.

(** ** tasks.py: the refresh task *)

Module Tasks.

Import ET.

(** What the task calls outside this repository and cannot be read off the
    call itself. *)
Record Env : Type := {
  (** [requests.get(url)]: status code and body *)
  requests_get : string → result (Z * string);
  (** [bytes.decode()] *)
  decode : string → result string;
  (** [ET.fromstring] *)
  fromstring : string → result element;
  (** [dateutil.parser.parse], to microseconds *)
  parse : string → result Z;
  (** [hashlib.sha256(data).hexdigest()] *)
  sha256_hexdigest : string → string;
  (** [Schedule.freeze(name, notify_speakers=...)] on the schedule with the
      given key; atomic on its own, so a failure leaves the store alone *)
  freeze : nat → option string → bool → Store → result Store;
  (** the code [Submission.save] leaves on a new row created with [code] *)
  saved_code : Store → option string → string;
  (** the tracked attributes of a new [Submission]: title, description,
      abstract, content_locale, do_not_record *)
  new_title : pyval;
  new_description : pyval;
  new_abstract : pyval;
  new_content_locale : pyval;
  new_do_not_record : pyval;
  (** whether the database sorts NULL after every value (PostgreSQL) or
      before (SQLite, MySQL) *)
  nulls_largest : bool;
}.

(** *** Querysets *)

(** [field__iexact=value] *)
Definition iexact (a b : string) : bool := bool_decide (lower a = lower b).

(** [field__icontains=value] *)
Definition icontains (value field : string) : bool :=
  contains (lower value) (lower field).

(** [qs.get()] *)
Definition get_one {A} (qs : list A) : result A :=
  match qs with
  | [] => raise DoesNotExist
  | [x] => ok x
  | _ => raise MultipleObjectsReturned
  end.

(** [qs.order_by(key).first()]: a row with the least key. Among rows with
    equal keys the model takes the earliest. *)
Fixpoint first_by {A K} (lt : K → K → bool) (key : A → K) (qs : list A) : option A :=
  match qs with
  | [] => None
  | x :: rest =>
      match first_by lt key rest with
      | Some y => if lt (key y) (key x) then Some y else Some x
      | None => Some x
      end
  end.

(** The order of a nullable column. *)
Definition null_lt (nulls_largest : bool) (a b : option Z) : bool :=
  match a, b with
  | Some x, Some y => x <? y
  | None, None => false
  | None, Some _ => negb nulls_largest
  | Some _, None => nulls_largest
  end.

(** [Event.objects.get(slug__iexact=event_slug)] *)
Definition get_event (event_slug : string) : M Event :=
  let! found := gets (λ s, filter (λ e, iexact (ev_slug e) event_slug = true) (events s)) in
  lift (get_one found).

(** pretalx, [Event.current_schedule]:
    [schedules.order_by('-published').filter(published__isnull=False).first()] *)
Definition current_schedule (s : Store) (ev : nat) : option Schedule :=
  first_by (λ a b, b <? a) (λ sch, default 0 (sched_published sch))
    (filter (λ sch, sched_event sch = ev ∧ sched_published sch ≠ None) (schedules s)).

(** pretalx, [Event.wip_schedule]:
    [schedules.get_or_create(version__isnull=True)] *)
Definition wip_schedule (ev : nat) : M Schedule :=
  let! found := gets (λ s, filter (λ sch, sched_event sch = ev ∧ sched_version sch = None)
                                  (schedules s)) in
  match found with
  | [] =>
      let! pk := gets (λ s, next_pk (sched_pk <$> schedules s)) in
      let sch := {| sched_pk := pk; sched_event := ev;
                    sched_version := None; sched_published := None |} in
      let! _ := modify (with_schedules (λ l, l ++ [sch])) in
      ret sch
  | [sch] => ret sch
  | _ => throw MultipleObjectsReturned
  end.

(** [event.schedules.get(version=v)] *)
Definition get_schedule (ev : nat) (v : option string) : M Schedule :=
  let! found := gets (λ s, filter (λ sch, sched_event sch = ev ∧ sched_version sch = v)
                                  (schedules s)) in
  lift (get_one found).

(** [schedule.talks] *)
Definition talks (s : Store) (sch : nat) : list TalkSlot :=
  filter (λ sl, slot_schedule sl = sch) (slots s).

(** [Room.objects.get_or_create(event=event, name=name)] *)
Definition get_or_create_room (ev : nat) (name : string) : M Room :=
  let! found := gets (λ s, filter (λ r, room_event r = ev ∧ room_name r = name) (rooms s)) in
  match found with
  | [] =>
      let! pk := gets (λ s, next_pk (room_pk <$> rooms s)) in
      let r := {| room_pk := pk; room_event := ev; room_name := name |} in
      let! _ := modify (with_rooms (λ l, l ++ [r])) in
      ret r
  | [r] => ret r
  | _ => throw MultipleObjectsReturned
  end.

(** *** [_create_talk], block by block *)

(** Lines 91-99: start, end and duration in minutes. *)
Definition us_per_hour : Z := 60 * us_per_minute.

Definition two_parts (parts : list string) : result (string * string) :=
  match parts with
  | [a; b] => ok (a, b)
  | _ => raise ValueError
  end.

(** [None.split(...)] is an [AttributeError] like [None.text]. *)
Definition split_text (x : option string) : result (list string) :=
  match x with
  | None => raise AttributeError
  | Some s => ok (split_on ":" s)
  end.

(** [datetime + timedelta]; the result has to lie in years 1 to 9999. *)
Definition datetime_add (t d : Z) : result Z :=
  if (-62135596800000000 <=? t + d) && (t + d <=? 253402300799999999)
  then ok (t + d) else raise OverflowError.

Definition parse_at (E : Env) (date : option string) (x : option element) : result Z :=
  let? d := str_add date (Some " ") in
  let? t := text_of x in
  let? both := str_add d t in
  parse E (default "" both).

Definition talk_times (E : Env) (talk : element) : result (Z * Z * Z) :=
  let? date := text_of (find "date" talk) in
  let? start := parse_at E date (find "start" talk) in
  let? dur := text_of (find "duration" talk) in
  let? parts := split_text dur in
  let? hm := two_parts parts in
  let? hours := int_of_str hm.1 in
  let? minutes := int_of_str hm.2 in
  let? duration := timedelta_us (hours * us_per_hour + minutes * us_per_minute) in
  let duration_in_minutes := duration / us_per_minute in
  let? end_ :=
    match parse_at E date (find "end" talk) with
    | inl AttributeError => datetime_add start duration
    | r => r
    end in
  ok (start, end_, duration_in_minutes).

(** Lines 100-109. [filter(name=None)] is [name IS NULL]; the column is
    not nullable, so it matches no row. *)
Definition resolve_submission_type (ev : nat) (talk : element)
    (duration_in_minutes : Z) : M SubmissionType :=
  let! name := lift (text_of (find "type" talk)) in
  let! sub_type := gets (λ s,
    head (filter (λ t, st_event t = ev ∧ Some (st_name t) = name
                       ∧ st_default_duration t = duration_in_minutes)
                 (submission_types s))) in
  match sub_type with
  | Some t => ret t
  | None =>
      let! pk := gets (λ s, next_pk (st_pk <$> submission_types s)) in
      let t := {| st_pk := pk; st_event := ev;
                  st_name := match py_or (of_text name) (PyStr "default") with
                             | PyStr n => n
                             | _ => "default"
                             end;
                  st_default_duration := duration_in_minutes |} in
      let! _ := modify (with_submission_types (λ l, l ++ [t])) in
      ret t
  end.

(** Lines 111-122. Django refuses [None] as the value of [icontains] with
    a [ValueError]. *)
Definition resolve_track (ev : nat) (talk : element) : M Track :=
  let! name := lift (text_of (find "track" talk)) in
  match name with
  | None => throw ValueError
  | Some n =>
      let! tracks := gets (λ s,
        filter (λ t, tr_event t = ev ∧ icontains n (tr_name t) = true) (tracks s)) in
      match filter (λ t, tr_name t = n) tracks with
      | t :: _ => ret t
      | [] =>
          let! pk := gets (λ s, next_pk (tr_pk <$> Model.tracks s)) in
          let t := {| tr_pk := pk; tr_event := ev;
                      tr_name := if truthy (PyStr n) then n else "default" |} in
          let! _ := modify (with_tracks (λ l, l ++ [t])) in
          ret t
      end
  end.

(** Lines 124-126: [suppress(AttributeError)] around the opt-out. *)
Definition optout_of (talk : element) : bool :=
  match (let? o := find_of "optout" (find "recording" talk) in text_of o) with
  | inr x => py_eq (of_text x) (PyStr "true")
  | inl _ => false
  end.

(** Lines 128-140: the code of the talk. *)
Definition code_in_event (s : Store) (ev : nat) (c : string) : bool :=
  bool_decide (Exists (λ sub, iexact (sub_code sub) c = true ∧ sub_event sub = ev)
                      (submissions s)).

Definition code_anywhere (s : Store) (c : string) : bool :=
  bool_decide (Exists (λ sub, iexact (sub_code sub) c = true) (submissions s)).

Definition resolve_code (s : Store) (ev : nat) (talk : element) : result (option string) :=
  let? id := attrib "id" talk in
  if code_in_event s ev id || negb (code_anywhere s id) then ok (Some id)
  else
    let? guid := attrib "guid" talk in
    if code_in_event s ev (str_take 16 guid) || negb (code_anywhere s (str_take 16 guid))
    then ok (Some (str_take 16 guid))
    else ok None.

(** Lines 142-144: [Submission.objects.get_or_create(event=event, code=code,
    defaults=...)]. [code=None] is [code IS NULL] and matches no row. *)
Definition get_or_create_submission (E : Env) (ev : nat) (code : option string)
    (sub_type : nat) : M (Submission * bool) :=
  let! found := gets (λ s,
    filter (λ sub, sub_event sub = ev ∧ Some (sub_code sub) = code) (submissions s)) in
  match found with
  | [] =>
      let! pk := gets (λ s, next_pk (sub_pk <$> submissions s)) in
      let! c := gets (λ s, saved_code E s code) in
      let sub := {| sub_pk := pk; sub_event := ev; sub_code := c;
                    sub_submission_type := sub_type; sub_track := None;
                    sub_title := new_title E;
                    sub_description := new_description E;
                    sub_abstract := new_abstract E;
                    sub_content_locale := new_content_locale E;
                    sub_do_not_record := new_do_not_record E;
                    sub_speakers := ∅ |} in
      let! _ := modify (with_submissions (λ l, l ++ [sub])) in
      ret (sub, true)
  | [sub] => ret (sub, false)
  | _ => throw MultipleObjectsReturned
  end.

(** Lines 148-160: [change_tracking_data], in the order of its keys. *)
Inductive field : Type :=
| title | description | abstract | content_locale | do_not_record.

#[export] Instance field_eq_dec : EqDecision field.
Proof. solve_decision. Defined.

Definition field_name (f : field) : string :=
  match f with
  | title => "title"
  | description => "description"
  | abstract => "abstract"
  | content_locale => "content_locale"
  | do_not_record => "do_not_record"
  end.

Definition getattr (sub : Submission) (f : field) : pyval :=
  match f with
  | title => sub_title sub
  | description => sub_description sub
  | abstract => sub_abstract sub
  | content_locale => sub_content_locale sub
  | do_not_record => sub_do_not_record sub
  end.

Definition setattr (sub : Submission) (f : field) (v : pyval) : Submission :=
  {| sub_pk := sub_pk sub; sub_event := sub_event sub; sub_code := sub_code sub;
     sub_submission_type := sub_submission_type sub; sub_track := sub_track sub;
     sub_title := if decide (f = title) then v else sub_title sub;
     sub_description := if decide (f = description) then v else sub_description sub;
     sub_abstract := if decide (f = abstract) then v else sub_abstract sub;
     sub_content_locale :=
       if decide (f = content_locale) then v else sub_content_locale sub;
     sub_do_not_record :=
       if decide (f = do_not_record) then v else sub_do_not_record sub;
     sub_speakers := sub_speakers sub |}.

Definition newline : string := String "010"%char EmptyString.

Definition change_tracking_data (talk : element) (optout : bool)
    : result (list (field * pyval)) :=
  let? t := text_of (find "title" talk) in
  let? d := text_of (find "description" talk) in
  let? a := text_of (find "abstract" talk) in
  let? l := text_of (find "language" talk) in
  let? subtitle := text_of (find "subtitle" talk) in
  let d' :=
    if truthy (of_text subtitle)
    then PyStr (default "" subtitle +:+ newline +:+
                match py_or (of_text d) (PyStr "") with
                | PyStr x => x
                | _ => ""
                end)
    else of_text d in
  ok [ (title, of_text t); (description, d'); (abstract, of_text a);
       (content_locale, py_or (of_text l) (PyStr "en"));
       (do_not_record, PyBool optout) ].

(** Lines 162-165: one turn of the loop over the tracked fields. *)
Definition track_field (acc : gmap string change * Submission) (kv : field * pyval)
    : gmap string change * Submission :=
  let '(changes, sub) := acc in
  let '(key, value) := kv in
  if negb (py_eq (getattr sub key) value)
  then (<[field_name key := Change (getattr sub key) value]> changes,
        setattr sub key value)
  else (changes, sub).

Definition track_changes (sub : Submission) (data : list (field * pyval))
    : gmap string change * Submission :=
  foldl track_field (∅, sub) data.

(** [sub.save()], and [slot.save()]: the row with that key is replaced. *)
Definition save_submission (sub : Submission) : M unit :=
  modify (with_submissions
            (fmap (λ x, if decide (sub_pk x = sub_pk sub) then sub else x))).

Definition save_slot (sl : TalkSlot) : M unit :=
  modify (with_slots
            (fmap (λ x, if decide (slot_pk x = slot_pk sl) then sl else x))).

(** pretalx declares [User.email] unique: the insert of a person whose
    address is already stored raises [IntegrityError]. *)
Definition email_taken (s : Store) (email : string) : bool :=
  bool_decide (Exists (λ u, user_email u = email) (users s)).

(** Lines 170-175: one speaker. [None[:60]] is a [TypeError];
    [user.save()] of line 173 is an insert into the table of persons. *)
Definition resolve_speaker (ev : nat) (person : element) : M User :=
  match text person with
  | None => throw TypeError
  | Some name =>
      let! user := gets (λ s,
        head (filter (λ u, user_name u = str_take 60 name) (users s))) in
      match user with
      | Some u => ret u
      | None =>
          let! pk := gets (λ s, next_pk (user_pk <$> users s)) in
          let u := {| user_pk := pk; user_name := name;
                      user_email := name +:+ "@localhost" |} in
          let! taken := gets (λ s, email_taken s (user_email u)) in
          if taken then throw IntegrityError
          else
            let! _ := modify (with_users (λ l, l ++ [u])) in
            let! _ := modify (with_speaker_profiles
                                (λ l, l ++ [{| sp_user := pk; sp_event := ev |}])) in
            ret u
      end
  end.

(** [sub.speakers.add(user)] *)
Definition add_speaker (sub : nat) (user : nat) : M unit :=
  modify (with_submissions
            (fmap (λ x, if decide (sub_pk x = sub)
                        then {| sub_pk := sub_pk x; sub_event := sub_event x;
                                sub_code := sub_code x;
                                sub_submission_type := sub_submission_type x;
                                sub_track := sub_track x; sub_title := sub_title x;
                                sub_description := sub_description x;
                                sub_abstract := sub_abstract x;
                                sub_content_locale := sub_content_locale x;
                                sub_do_not_record := sub_do_not_record x;
                                sub_speakers := {[user]} ∪ sub_speakers x |}
                        else x))).

(** Lines 169-175: the loop over the persons. *)
Fixpoint add_speakers (ev : nat) (sub : nat) (persons : list element) : M unit :=
  match persons with
  | [] => ret tt
  | person :: rest =>
      let! user := resolve_speaker ev person in
      let! _ := add_speaker sub (user_pk user) in
      add_speakers ev sub rest
  end.

(** Lines 177-184: the slot of the talk in the working schedule. *)
Definition get_or_create_slot (sub : nat) (sch : nat) : M TalkSlot :=
  let! found := gets (λ s,
    filter (λ sl, slot_submission sl = sub ∧ slot_schedule sl = sch) (slots s)) in
  match found with
  | [] =>
      let! pk := gets (λ s, next_pk (slot_pk <$> slots s)) in
      let sl := {| slot_pk := pk; slot_submission := sub; slot_schedule := sch;
                   slot_room := None; slot_is_visible := true;
                   slot_start := None; slot_end := None |} in
      let! _ := modify (with_slots (λ l, l ++ [sl])) in
      ret sl
  | [sl] => ret sl
  | _ => throw MultipleObjectsReturned
  end.

Definition upsert_slot (ev : nat) (sub : nat) (room : nat) (start end_ : Z) : M unit :=
  let! wip := wip_schedule ev in
  let! sl := get_or_create_slot sub (sched_pk wip) in
  save_slot {| slot_pk := slot_pk sl; slot_submission := slot_submission sl;
               slot_schedule := slot_schedule sl; slot_room := Some room;
               slot_is_visible := true; slot_start := Some start;
               slot_end := Some end_ |}.

(** Lines 185-187: what the merge of one talk reports. *)
Definition contribution (created : bool) (code : string) (changes : gmap string change)
    : change_map :=
  if negb created && negb (bool_decide (changes = ∅))
  then {[ code := changes ]} else ∅.

(** Lines 89-187 *)
Definition _create_talk (E : Env) (talk : element) (room : Room) (event : Event)
    : M change_map :=
  let ev := ev_pk event in
  let! times := lift (talk_times E talk) in
  let '(start, end_, duration_in_minutes) := times in
  let! sub_type := resolve_submission_type ev talk duration_in_minutes in
  let! track := resolve_track ev talk in
  let optout := optout_of talk in
  let! code := (λ s, (resolve_code s ev talk, s)) in
  let! got := get_or_create_submission E ev code (st_pk sub_type) in
  let '(sub, created) := got in
  let sub := {| sub_pk := sub_pk sub; sub_event := sub_event sub;
                sub_code := sub_code sub;
                sub_submission_type := st_pk sub_type;
                sub_track := Some (tr_pk track);
                sub_title := sub_title sub; sub_description := sub_description sub;
                sub_abstract := sub_abstract sub;
                sub_content_locale := sub_content_locale sub;
                sub_do_not_record := sub_do_not_record sub;
                sub_speakers := sub_speakers sub |} in
  let! data := lift (change_tracking_data talk optout) in
  let '(changes, sub) := track_changes sub data in
  let! _ := save_submission sub in
  let! persons := lift (match find "persons" talk with
                        | None => raise AttributeError
                        | Some p => ok (findall "person" p)
                        end) in
  let! _ := add_speakers ev (sub_pk sub) persons in
  let! _ := upsert_slot ev (sub_pk sub) (room_pk room) start end_ in
  ret (contribution created (sub_code sub) changes).

(** *** [process_frab] *)

(** Lines 66-67: the talks of one room; [changes.update(...)] lets the
    later contribution win on a common key. *)
Fixpoint merge_talks (E : Env) (event : Event) (room : Room) (evts : list element)
    (changes : change_map) : M change_map :=
  match evts with
  | [] => ret changes
  | talk :: rest =>
      let! c := _create_talk E talk room event in
      merge_talks E event room rest (c ∪ changes)
  end.

(** Lines 64-67: the rooms of one day. *)
Fixpoint merge_rooms (E : Env) (event : Event) (rms : list element)
    (changes : change_map) : M change_map :=
  match rms with
  | [] => ret changes
  | rm :: rest =>
      let! name := lift (attrib "name" rm) in
      let! room := get_or_create_room (ev_pk event) name in
      let! changes := merge_talks E event room (findall "event" rm) changes in
      merge_rooms E event rest changes
  end.

(** Lines 63-67: the days of the document. *)
Fixpoint merge_days (E : Env) (event : Event) (days : list element)
    (changes : change_map) : M change_map :=
  match days with
  | [] => ret changes
  | day :: rest =>
      let! changes := merge_rooms E event (findall "room" day) changes in
      merge_days E event rest changes
  end.

(** Lines 72-78: the [try] block. *)
Definition freeze_wip (E : Env) (event : Event) (schedule_version : option string)
    : M Schedule :=
  reraise_as (ReleaseFailed (ev_name event) schedule_version)
    (let! wip := wip_schedule (ev_pk event) in
     let! _ := (λ s, match freeze E (sched_pk wip) schedule_version false s with
                     | inl e => (inl e, s)
                     | inr s' => (inr tt, s')
                     end) in
     get_schedule (ev_pk event) schedule_version).

(** Line 80: [schedule.talks.update(is_visible=True)] *)
Definition show_slot (sl : TalkSlot) : TalkSlot :=
  {| slot_pk := slot_pk sl; slot_submission := slot_submission sl;
     slot_schedule := slot_schedule sl; slot_room := slot_room sl;
     slot_is_visible := true; slot_start := slot_start sl;
     slot_end := slot_end sl |}.

Definition show_talks (sch : nat) : M unit :=
  modify (with_slots
            (fmap (λ sl, if decide (slot_schedule sl = sch) then show_slot sl else sl))).

(** Lines 81-82: [.first().start] and [.first().end]; [None.start] is an
    [AttributeError]. *)
Definition first_start (E : Env) (sch : nat) : M (option Z) :=
  let! sl := gets (λ s, first_by (null_lt (nulls_largest E)) slot_start (talks s sch)) in
  match sl with
  | None => throw AttributeError
  | Some sl => ret (slot_start sl)
  end.

Definition last_end (E : Env) (sch : nat) : M (option Z) :=
  let! sl := gets (λ s, first_by (λ a b, null_lt (nulls_largest E) b a) slot_end
                                 (talks s sch)) in
  match sl with
  | None => throw AttributeError
  | Some sl => ret (slot_end sl)
  end.

(** Lines 83-84: [x.date()]; [None.date()] is an [AttributeError]. *)
Definition date (x : option Z) : M Z :=
  match x with
  | None => throw AttributeError
  | Some t => ret (date_of t)
  end.

(** Line 85: [event.save()] writes the object the task holds. *)
Definition save_event (event : Event) : M unit :=
  modify (with_events (fmap (λ x, if decide (ev_pk x = ev_pk event) then event else x))).

(** Lines 70-85 *)
Definition release (E : Env) (root : element) (event : Event) : M Schedule :=
  let! schedule_version := lift (text_of (find "version" root)) in
  let! schedule := freeze_wip E event schedule_version in
  let! _ := show_talks (sched_pk schedule) in
  let! start := first_start E (sched_pk schedule) in
  let! end_ := last_end E (sched_pk schedule) in
  let! date_from := date start in
  let! date_to := date end_ in
  let! _ := save_event {| ev_pk := ev_pk event; ev_slug := ev_slug event;
                          ev_name := ev_name event;
                          ev_date_from := date_from; ev_date_to := date_to |} in
  ret schedule.

(** Lines 62-86, without the decorator. *)
Definition process_frab_body (E : Env) (root : element) (event : Event)
    (release_new_version : bool) : M (change_map * option Schedule) :=
  let! changes := merge_days E event (findall "day" root) ∅ in
  if release_new_version then
    let! schedule := release E root event in
    ret (changes, Some schedule)
  else ret (changes, None).

(** Lines 57-86 *)
Definition process_frab (E : Env) (root : element) (event : Event)
    (release_new_version : bool) : M (change_map * option Schedule) :=
  atomic (process_frab_body E root event release_new_version).

(** *** [task_refresh_upstream_schedule] *)

(** Modelled from the spec: [UpstreamResult.checksum], declared in
    [models.py], which is not among the sources. The spec has it as the
    stored content fingerprint, a fixed-length digest over the raw bytes:
    here the hexadecimal digest of the stored content. *)
Definition checksum (E : Env) (r : UpstreamResult) : pyval :=
  PyStr (sha256_hexdigest E (ur_content r)).

(** Line 37: [event.upstream_results.order_by('timestamp').first()] *)
Definition last_result_of (s : Store) (ev : nat) : option UpstreamResult :=
  first_by Z.ltb ur_timestamp (filter (λ r, ur_event r = ev) (upstream_results s)).

(** Lines 38-39: [m = hashlib.sha256(); m.update(response.content)]. The
    object is new: nothing read from the database is this object. *)
Definition new_object : nat := 0%nat.

Definition sha256_of (body : string) : pyval := PyHash new_object body.

(** Line 40: [last_result and m == last_result.checksum] *)
Definition up_to_date (E : Env) (last_result : option UpstreamResult) (m : pyval) : bool :=
  match last_result with
  | None => false
  | Some r => py_eq m (checksum E r)
  end.

(** Line 41: [event.settings.upstream_last_sync = now()] *)
Definition mark_up_to_date (ev : nat) (now : Z) : M unit :=
  modify (set_setting ev "upstream_last_sync" (PyDatetime now)).

(** Lines 46-48 *)
Definition release_new_version (s : Store) (ev : nat) (schedule_version : option string)
    : bool :=
  match current_schedule s ev with
  | None => true
  | Some cs => negb (py_eq (of_text schedule_version) (of_text (sched_version cs)))
  end.

(** Lines 52-54 *)
Definition create_result (ev : nat) (schedule : option Schedule) (changes : change_map)
    (content : string) (now : Z) : M unit :=
  modify (with_upstream_results
            (λ l, l ++ [ {| ur_event := ev; ur_schedule := sched_pk <$> schedule;
                            ur_changes := changes; ur_content := content;
                            ur_timestamp := now |} ])).

(** Lines 28-34: the fetch. *)
Definition fetch (E : Env) (url : pyval) : result string :=
  let? response := match url with
                   | PyStr u => requests_get E u
                   | _ => raise (ExternalError "requests.get")
                   end in
  if negb (response.1 =? 200) then raise (CouldNotRetrieve response.1)
  else ok response.2.

(** Lines 44-54: what follows the comparison when it fails. *)
Definition import_document (E : Env) (now : Z) (event : Event) (content : string) : M unit :=
  let! root := lift (fromstring E content) in
  let! schedule_version := lift (text_of (find "version" root)) in
  let! rnv := gets (λ s, release_new_version s (ev_pk event) schedule_version) in
  let! r := process_frab E root event rnv in
  create_result (ev_pk event) r.2 r.1 content now.

(** Lines 22-54. [now] is what the clock says during the call. *)
Definition task_refresh_upstream_schedule (E : Env) (now : Z) (event_slug : string)
    : M unit :=
  let! event := get_event event_slug in
  let! url := gets (λ s, get_setting s (ev_pk event) "downstream_upstream_url") in
  if negb (truthy url) then throw NoUpstreamUrl
  else
    let! body := lift (fetch E url) in
    let! content := lift (decode E body) in
    let! last_result := gets (λ s, last_result_of s (ev_pk event)) in
    let m := sha256_of body in
    if up_to_date E last_result m then mark_up_to_date (ev_pk event) now
    else import_document E now event content.

End Tasks.

(** ** Notions used in the statements *)

Module Notions.

Import Tasks.

(** A computation that leaves the store as it found it whenever it
    raises, one that never writes, and one that never raises. *)
Definition failsafe {A} (c : M A) : Prop :=
  ∀ s e s', c s = (inl e, s') → s' = s.

Definition readonly {A} (c : M A) : Prop :=
  ∀ s, (c s).2 = s.

Definition unfailing {A} (c : M A) : Prop :=
  ∀ s e s', c s ≠ (inl e, s').

(** The entry of [change_tracking_data] for a field name. *)
Definition entry_of (name : string) (data : list (field * pyval)) : option (field * pyval) :=
  head (filter (λ kv, field_name kv.1 = name) data).



(** The event as line 85 saves it. *)
Definition with_dates (event : Event) (date_from date_to : Z) : Event :=
  {| ev_pk := ev_pk event; ev_slug := ev_slug event; ev_name := ev_name event;
     ev_date_from := date_from; ev_date_to := date_to |}.

(** What a later store keeps of an earlier one: the events, the settings
    and the results as they were; the rows of the tables that are only
    added to; the primary keys of talks and slots. *)
Definition keeps (s s' : Store) : Prop :=
  events s' = events s ∧ settings s' = settings s ∧
  upstream_results s' = upstream_results s ∧
  rooms s `prefix_of` rooms s' ∧
  submission_types s `prefix_of` submission_types s' ∧
  tracks s `prefix_of` tracks s' ∧
  users s `prefix_of` users s' ∧
  speaker_profiles s `prefix_of` speaker_profiles s' ∧
  schedules s `prefix_of` schedules s' ∧
  (sub_pk <$> submissions s) `prefix_of` (sub_pk <$> submissions s') ∧
  (slot_pk <$> slots s) `prefix_of` (slot_pk <$> slots s').

Definition keeping {A} (c : M A) : Prop := ∀ s, keeps s (c s).2.

(** A talk as it is after speakers were added: the same row but for
    speakers it gained. *)
Definition gains_speakers (x x' : Submission) : Prop :=
  sub_pk x' = sub_pk x ∧ sub_event x' = sub_event x ∧ sub_code x' = sub_code x ∧
  (∀ f, getattr x' f = getattr x f) ∧ sub_speakers x ⊆ sub_speakers x'.

End Notions.

(** ** Sample data: an event, documents and the collaborators around them *)

Module Sample.

Import ET Tasks.

Definition leaf (tag : string) (x : option string) : element :=
  Element tag [] x [].

(** A talk of half an hour on 2024-01-01 at 09:00, without [<end>] and
    without [<recording>]. *)
Definition talk_el (id guid : string) (type_ title_ : option string)
    (persons : list string) : element :=
  Element "event" [("id", id); ("guid", guid)] None
    [ leaf "date" (Some "2024-01-01"); leaf "start" (Some "09:00");
      leaf "duration" (Some "00:30"); leaf "type" type_;
      leaf "track" (Some "Main"); leaf "title" title_;
      leaf "subtitle" None; leaf "description" None; leaf "abstract" None;
      leaf "language" (Some "en");
      Element "persons" [] None ((λ p, leaf "person" (Some p)) <$> persons) ].

Definition schedule_el (version : string) (evts : list element) : element :=
  Element "schedule" [] None
    [ leaf "version" (Some version);
      Element "day" [] None [ Element "room" [("name", "Hall")] None evts ] ].

Definition guid1 : string := "aaaaaaaa-bbbb-cccc-dddd-eeeeeeeeeeee".

Definition talk_a : element := talk_el "1" guid1 (Some "Talk") (Some "A") ["Ada"].
Definition talk_b : element := talk_el "1" guid1 (Some "Talk") (Some "B") ["Ada"].
Definition talk_untyped : element := talk_el "2" guid1 None (Some "C") [].

Definition doc_v1 : element := schedule_el "1.0" [talk_a].
Definition doc_twice : element := schedule_el "1.0" [talk_a; talk_b].

(** 2024-01-01 00:00 UTC, in microseconds. *)
Definition day0 : Z := 19723 * us_per_day.

Definition sample_parse (x : string) : result Z :=
  if bool_decide (x = "2024-01-01 09:00") then ok (day0 + 9 * us_per_hour)
  else if bool_decide (x = "2024-01-03 16:30") then ok (day0 + 2 * us_per_day + 16 * us_per_hour + 30 * us_per_minute)
  else raise ValueError.

Definition sample_fromstring (x : string) : result element :=
  if bool_decide (x = "<schedule v1/>") then ok doc_v1
  else if bool_decide (x = "<schedule twice/>") then ok doc_twice
  else raise ParseError.

(** A release in the manner of pretalx: the working schedule takes the
    name and a publication time, a new working schedule takes over copies
    of its slots. A missing name is refused. *)
Definition copy_slot (to : nat) (pk : nat) (sl : TalkSlot) : TalkSlot :=
  {| slot_pk := pk; slot_submission := slot_submission sl; slot_schedule := to;
     slot_room := slot_room sl; slot_is_visible := slot_is_visible sl;
     slot_start := slot_start sl; slot_end := slot_end sl |}.

Definition sample_freeze (sch : nat) (name : option string) (notify : bool) (s : Store)
    : result Store :=
  match name with
  | None => raise (ExternalError "Cannot create schedule version without a version name.")
  | Some _ =>
      let published :=
        1 + foldr Z.max 0 ((λ x, default 0 (sched_published x)) <$> schedules s) in
      let ev := default 0%nat (sched_event <$> head (filter (λ x, sched_pk x = sch) (schedules s))) in
      let wip := next_pk (sched_pk <$> schedules s) in
      let base := next_pk (slot_pk <$> slots s) in
      let copies := imap (λ i sl, copy_slot wip (base + i) sl) (talks s sch) in
      ok (with_slots (λ l, l ++ copies)
            (with_schedules
               (λ l, ((λ x, if decide (sched_pk x = sch)
                            then {| sched_pk := sch; sched_event := sched_event x;
                                    sched_version := name;
                                    sched_published := Some published |}
                            else x) <$> l)
                     ++ [ {| sched_pk := wip; sched_event := ev;
                             sched_version := None; sched_published := None |} ])
               s))
  end.

Definition url : string := "https://upstream.example/schedule.xml".

Definition env (body : string) : Env :=
  {| requests_get := λ u, if bool_decide (u = url) then ok (200, body)
                          else ok (404, "");
     decode := ok;
     fromstring := sample_fromstring;
     parse := sample_parse;
     sha256_hexdigest := λ x, "sha256:" +:+ x;
     freeze := sample_freeze;
     saved_code := λ s c, default "GENERATED" c;
     new_title := PyStr "";
     new_description := PyNone;
     new_abstract := PyNone;
     new_content_locale := PyStr "en";
     new_do_not_record := PyBool false;
     nulls_largest := true |}.

(** The same, with a release that always fails. *)
Definition env_no_release (body : string) : Env :=
  {| requests_get := requests_get (env body); decode := decode (env body);
     fromstring := fromstring (env body); parse := parse (env body);
     sha256_hexdigest := sha256_hexdigest (env body);
     freeze := λ _ _ _ _, raise (ExternalError "storage failure");
     saved_code := saved_code (env body);
     new_title := new_title (env body);
     new_description := new_description (env body);
     new_abstract := new_abstract (env body);
     new_content_locale := new_content_locale (env body);
     new_do_not_record := new_do_not_record (env body);
     nulls_largest := nulls_largest (env body) |}.

Definition conf : Event :=
  {| ev_pk := 1; ev_slug := "conf"; ev_name := "Conf";
     ev_date_from := 0; ev_date_to := 0 |}.

Definition other : Event :=
  {| ev_pk := 2; ev_slug := "other"; ev_name := "Other";
     ev_date_from := 0; ev_date_to := 0 |}.

Definition store_with (evs : list Event) (cfg : gmap nat (gmap string pyval)) : Store :=
  {| events := evs; settings := cfg; rooms := []; submission_types := [];
     tracks := []; submissions := []; users := []; speaker_profiles := [];
     slots := []; schedules := []; upstream_results := [] |}.

(** One event with an upstream URL and nothing imported so far. *)
Definition store0 : Store :=
  store_with [conf] {[ 1%nat := {[ "downstream_upstream_url" := PyStr url ]} ]}.

Definition hall : Room := {| room_pk := 1; room_event := 1; room_name := "Hall" |}.

(** The same event with the interval set to a word. *)
Definition store_word_interval : Store :=
  store_with [conf]
    {[ 1%nat := {[ "downstream_upstream_url" := PyStr url;
                   "downstream_interval" := PyStr "five" ]} ]}.

(** The same event after two imports, at times 100 and 200. *)
Definition result_at (t : Z) (content : string) : UpstreamResult :=
  {| ur_event := 1; ur_schedule := None; ur_changes := ∅;
     ur_content := content; ur_timestamp := t |}.

Definition store_two_results : Store :=
  with_upstream_results (λ _, [result_at 100 "first"; result_at 200 "second"]) store0.

(** A talk of another event holds the code "1". *)
Definition taken (ev : nat) (code : string) : Submission :=
  {| sub_pk := 1; sub_event := ev; sub_code := code; sub_submission_type := 1;
     sub_track := None; sub_title := PyStr "Elsewhere"; sub_description := PyNone;
     sub_abstract := PyNone; sub_content_locale := PyStr "en";
     sub_do_not_record := PyBool false; sub_speakers := ∅ |}.

Definition store_code_taken : Store :=
  with_submissions (λ _, [taken 2 "1"]) (store_with [conf; other] ∅).

(** A display name of 61 characters. *)
Definition long_name : string :=
  "Wolfeschlegelsteinhausenbergerdorff Adolph Blaine Charles Dav".

Definition long_person : element := leaf "person" (Some long_name).

(** The store after talk "1" was merged with the title "A". *)
Definition store_a : Store := (_create_talk (env "") talk_a hall conf store0).2.

(** What the merge reports when the title goes from "A" to "B". *)
Definition title_a_to_b : change_map :=
  {[ "1" := {[ "title" := Change (PyStr "A") (PyStr "B") ]} ]}.

(** The event, last synchronised at time [t]. *)
Definition store_synced (t : Z) : Store :=
  store_with [conf]
    {[ 1%nat := {[ "downstream_upstream_url" := PyStr url;
                   "downstream_last_sync" := PyDatetime t ]} ]}.

(** Two events, neither with an upstream URL. *)
Definition store_no_url : Store := store_with [conf; other] ∅.

(** Three events: the first due, the second with a word for an interval,
    the third due. *)
Definition third : Event :=
  {| ev_pk := 3; ev_slug := "third"; ev_name := "Third";
     ev_date_from := 0; ev_date_to := 0 |}.

Definition store_three : Store :=
  store_with [conf; other; third]
    {[ 1%nat := {[ "downstream_upstream_url" := PyStr url ]};
       2%nat := {[ "downstream_upstream_url" := PyStr url;
                   "downstream_interval" := PyStr "five" ]};
       3%nat := {[ "downstream_upstream_url" := PyStr url ]} ]}.

(** A document with a version and no day. *)
Definition doc_empty : element :=
  Element "schedule" [] None [ leaf "version" (Some "1.0") ].

(** The upstream answers 503. *)
Definition env_down : Env :=
  {| requests_get := λ _, ok (503, ""); decode := decode (env "");
     fromstring := fromstring (env ""); parse := parse (env "");
     sha256_hexdigest := sha256_hexdigest (env "");
     freeze := freeze (env "");
     saved_code := saved_code (env "");
     new_title := new_title (env "");
     new_description := new_description (env "");
     new_abstract := new_abstract (env "");
     new_content_locale := new_content_locale (env "");
     new_do_not_record := new_do_not_record (env "");
     nulls_largest := nulls_largest (env "") |}.

(** A talk whose speaker asks not to be recorded. *)
Definition talk_optout : element :=
  Element "event" [("id", "3"); ("guid", guid1)] None
    [ Element "recording" [] None [ leaf "optout" (Some "true") ] ].

(** Talks of another event hold both the code "1" and the guid cut to 16
    characters. *)
Definition store_both_taken : Store :=
  with_submissions (λ _, [taken 2 "1"; taken 2 (str_take 16 guid1)])
    (store_with [conf; other] ∅).

(** A talk of the event holds the code "1". *)
Definition store_code_mine : Store :=
  with_submissions (λ _, [taken 1 "1"]) (store_with [conf; other] ∅).

Definition ada : element := leaf "person" (Some "Ada").

(** The fields of talk "1" as the document with title "B" has them. *)
Definition data_b : list (field * pyval) :=
  [ (title, PyStr "B"); (description, PyNone); (abstract, PyNone);
    (content_locale, PyStr "en"); (do_not_record, PyBool false) ].

(** The store after the first import of the document of version 1.0. *)
Definition store_released : Store :=
  (task_refresh_upstream_schedule (env "<schedule v1/>") 100 "conf" store0).2.

(** A document whose talk has a speaker with the long name. *)
Definition doc_long : element :=
  schedule_el "1.0" [talk_el "1" guid1 (Some "Talk") (Some "A") [long_name]].

End Sample.

(** * Properties *)

Import ET Signals Tasks Notions Sample.

(** ** Python values *)

Example int_of_str_examples :
  int_of_str " 15 " = ok 15 ∧ int_of_str "-1_000" = ok (-1000) ∧
  int_of_str "abc" = raise ValueError ∧ int_of_str "" = raise ValueError ∧
  int_of_str "1__0" = raise ValueError ∧ int_of_str "5_" = raise ValueError.
Proof. repeat split; reflexivity. Qed.

Example split_on_examples :
  split_on ":" "01:30" = ["01"; "30"] ∧ split_on ":" "90" = ["90"] ∧
  split_on ":" "1:2:3" = ["1"; "2"; "3"] ∧ split_on ":" "" = [""].
Proof. repeat split; reflexivity. Qed.

Lemma rbind_ok {A B} (a : A) (k : A → result B) : rbind (ok a) k = k a.
Proof. reflexivity. Qed.

Lemma rbind_raise {A B} (e : exn) (k : A → result B) : rbind (raise e) k = raise e.
Proof. reflexivity. Qed.

Lemma py_or_str (n : string) (d : pyval) : n ≠ "" → py_or (PyStr n) d = PyStr n.
Proof. intros Hn. unfold py_or; simpl. by rewrite bool_decide_eq_false_2. Qed.

(** A hash object is equal to no string, whatever was fed to it. *)
Lemma py_eq_hash_str oid fed x : py_eq (PyHash oid fed) (PyStr x) = false.
Proof. reflexivity. Qed.

Lemma py_eq_refl_text (x : option string) : py_eq (of_text x) (of_text x) = true.
Proof. destruct x; simpl; [by apply bool_decide_eq_true|done]. Qed.

Lemma py_eq_text (x y : option string) : py_eq (of_text x) (of_text y) = bool_decide (x = y).
Proof.
  destruct x as [a|], y as [b|]; simpl; try done.
  - destruct (decide (a = b)) as [->|Hne].
    + by rewrite !bool_decide_eq_true_2.
    + rewrite !bool_decide_eq_false_2; [done|congruence|done].
Qed.

(** ** The settings *)

Section Settings.

Context (s : Store) (ev : nat).

Lemma get_set_setting_same name v :
  get_setting (set_setting ev name v s) ev name = v.
Proof.
  unfold get_setting, set_setting; simpl.
  by rewrite lookup_insert_eq; simpl; rewrite lookup_insert_eq.
Qed.


End Settings.

(** ** Querysets *)

Section FirstBy.

Context {A K : Type} (lt : K → K → bool) (key : A → K).
Hypothesis lt_asym : ∀ a b, lt a b = true → lt b a = false.
Hypothesis lt_negtrans : ∀ a b c, lt a b = false → lt b c = false → lt a c = false.

Lemma first_by_nil (qs : list A) : first_by lt key qs = None ↔ qs = [].
Proof.
  destruct qs as [|x rest]; simpl; [done|].
  split; [|done]. destruct (first_by lt key rest) as [y|]; [|done].
  by destruct (lt (key y) (key x)).
Qed.

(** [first()] of an ordered queryset is a row of it, and no row sorts
    before it. *)
Lemma first_by_least (qs : list A) (x : A) :
  first_by lt key qs = Some x →
  x ∈ qs ∧ ∀ y, y ∈ qs → lt (key y) (key x) = false.
Proof.
  revert x. induction qs as [|a rest IH]; intros x; simpl; [done|].
  destruct (first_by lt key rest) as [y|] eqn:Hrest.
  - destruct (IH y eq_refl) as [Hin Hleast].
    destruct (lt (key y) (key a)) eqn:Hya; [intros [= <-]|intros [= ->]].
    + split; [by apply list_elem_of_further|].
      intros z [->|Hz]%elem_of_cons; [by apply lt_asym|by apply Hleast].
    + split; [by apply list_elem_of_here|].
      intros z [->|Hz]%elem_of_cons.
      * destruct (lt (key x) (key x)) eqn:Hxx; [|done].
        by rewrite (lt_asym _ _ Hxx) in Hxx.
      * eapply lt_negtrans; [by apply Hleast|done].
  - apply first_by_nil in Hrest as ->. intros [= ->].
    split; [by apply list_elem_of_here|].
    intros z ->%list_elem_of_singleton.
    destruct (lt (key x) (key x)) eqn:Hxx; [|done].
    by rewrite (lt_asym _ _ Hxx) in Hxx.
Qed.

End FirstBy.



(** ** signals.py *)

Section Trigger.

Lemma interval_minutes_unset : interval_minutes PyNone = ok 5.
Proof. reflexivity. Qed.

Lemma interval_minutes_empty : interval_minutes (PyStr "") = ok 5.
Proof. reflexivity. Qed.

Lemma interval_minutes_number n : n ≠ 0 → interval_minutes (PyInt n) = ok n.
Proof.
  intros Hn. unfold interval_minutes, py_or; simpl.
  by destruct (Z.eqb_spec n 0).
Qed.

(** A string that [int()] refuses is not replaced by the default: the
    handler is for [TypeError], [int()] raises [ValueError]. *)
Lemma interval_minutes_word (x : string) :
  x ≠ "" → int_of_str x = raise ValueError →
  interval_minutes (PyStr x) = raise ValueError.
Proof.
  intros Hx Hint. unfold interval_minutes, py_or; simpl.
  rewrite bool_decide_eq_false_2 by done. simpl. by rewrite Hint.
Qed.

(** With the interval unset, the task is queued exactly when no last
    synchronisation is recorded or more than five minutes have passed. *)
Lemma refresh_event_default_interval now s event :
  truthy (get_setting s (ev_pk event) "downstream_upstream_url") = true →
  get_setting s (ev_pk event) "downstream_interval" = PyNone →
  (get_setting s (ev_pk event) "downstream_last_sync" = PyNone →
   refresh_event now s event = ok (Some (ev_slug event))) ∧
  (∀ t, get_setting s (ev_pk event) "downstream_last_sync" = PyDatetime t →
   refresh_event now s event =
     ok (if now - t >? 5 * us_per_minute then Some (ev_slug event) else None)).
Proof.
  intros Hurl Hint. unfold refresh_event. rewrite Hurl, Hint. split.
  - by intros ->.
  - intros t ->. simpl. by destruct (now - t >? 5 * us_per_minute).
Qed.

(** C8, at an event whose interval is the string "five": the trigger does
    not fall back to five minutes. [int("five")] raises [ValueError], line
    21 catches [TypeError] only, and the exception leaves the receiver
    with no task queued. *)
Theorem trigger_raises_on_word_interval now :
  refresh_upstream_schedule now store_word_interval = ([], Some ValueError).
Proof. reflexivity. Qed.

End Trigger.

(** ** tasks.py: the comparison with the stored result *)

Section Comparison.

(** Line 37 takes a result of the event with the least timestamp. *)
Lemma last_result_of_oldest s ev r :
  last_result_of s ev = Some r →
  r ∈ upstream_results s ∧ ur_event r = ev ∧
  ∀ r', r' ∈ upstream_results s → ur_event r' = ev →
        ur_timestamp r ≤ ur_timestamp r'.
Proof.
  unfold last_result_of. intros H.
  apply (first_by_least Z.ltb ur_timestamp) in H as [Hin Hleast].
  - apply list_elem_of_filter in Hin as [Hev Hin]. repeat split; [done..|].
    intros r' Hr' Hev'. apply Z.ltb_ge, Hleast, list_elem_of_filter. done.
  - intros a b ?%Z.ltb_lt. apply Z.ltb_ge. lia.
  - intros a b c ?%Z.ltb_ge ?%Z.ltb_ge. apply Z.ltb_ge. lia.
Qed.

(** C3, at an event with results stored at times 100 and 200: the
    comparison of line 40 is made with the result of time 100, the oldest,
    not with the latest one. *)
Theorem last_result_is_the_oldest :
  upstream_results store_two_results = [result_at 100 "first"; result_at 200 "second"] ∧
  last_result_of store_two_results 1 = Some (result_at 100 "first").
Proof. split; reflexivity. Qed.

(** Line 40 compares the hash object itself, not its digest, with the
    stored checksum: the test fails whatever was fetched and stored. *)
Lemma up_to_date_never E last_result body :
  up_to_date E last_result (sha256_of body) = false.
Proof. by destruct last_result. Qed.


End Comparison.

(** ** tasks.py: the code of a talk *)

Section Code.

Context (s : Store) (ev : nat).

Lemma code_in_event_true c :
  code_in_event s ev c = true ↔
  ∃ sub, sub ∈ submissions s ∧ sub_event sub = ev ∧ iexact (sub_code sub) c = true.
Proof.
  unfold code_in_event. rewrite bool_decide_eq_true, Exists_exists. split.
  - intros (sub & Hin & Hc & Hev). eauto.
  - intros (sub & Hin & Hev & Hc). eauto.
Qed.

Lemma code_anywhere_true c :
  code_anywhere s c = true ↔
  ∃ sub, sub ∈ submissions s ∧ iexact (sub_code sub) c = true.
Proof.
  unfold code_anywhere. rewrite bool_decide_eq_true, Exists_exists. split.
  - intros (sub & Hin & Hc). eauto.
  - intros (sub & Hin & Hc). eauto.
Qed.

Lemma code_in_event_false c :
  code_in_event s ev c = false ↔
  ∀ sub, sub ∈ submissions s → sub_event sub = ev → iexact (sub_code sub) c = false.
Proof.
  rewrite <-not_true_iff_false, code_in_event_true. split.
  - intros Hno sub Hin Hev. apply not_true_iff_false. intros Hc. apply Hno. eauto.
  - intros Hall (sub & Hin & Hev & Hc). by rewrite (Hall sub Hin Hev) in Hc.
Qed.

Lemma code_anywhere_false c :
  code_anywhere s c = false ↔
  ∀ sub, sub ∈ submissions s → iexact (sub_code sub) c = false.
Proof.
  rewrite <-not_true_iff_false, code_anywhere_true. split.
  - intros Hno sub Hin. apply not_true_iff_false. intros Hc. apply Hno. eauto.
  - intros Hall (sub & Hin & Hc). by rewrite (Hall sub Hin) in Hc.
Qed.

(** C4: a talk whose id is, up to case, the code of a talk of another
    event and of no talk of this event, and whose guid cut to 16
    characters is the code of a talk of this event or of no talk at all,
    gets the guid cut to 16 characters as its code. *)
Theorem guid_fallback (talk : element) (id guid : string) :
  attrib "id" talk = ok id →
  attrib "guid" talk = ok guid →
  (∃ sub, sub ∈ submissions s ∧ sub_event sub ≠ ev ∧ iexact (sub_code sub) id = true) →
  (∀ sub, sub ∈ submissions s → sub_event sub = ev → iexact (sub_code sub) id = false) →
  ((∃ sub, sub ∈ submissions s ∧ sub_event sub = ev
           ∧ iexact (sub_code sub) (str_take 16 guid) = true)
   ∨ (∀ sub, sub ∈ submissions s → iexact (sub_code sub) (str_take 16 guid) = false)) →
  resolve_code s ev talk = ok (Some (str_take 16 guid)).
Proof.
  intros Hid Hguid (sub & Hin & _ & Hc) Hnot Hfree.
  unfold resolve_code. rewrite Hid, rbind_ok.
  assert (code_in_event s ev id = false) as -> by by apply code_in_event_false.
  assert (code_anywhere s id = true) as -> by (apply code_anywhere_true; eauto).
  cbn [orb negb]. rewrite Hguid, rbind_ok.
  destruct Hfree as [Hmine|Hnone].
  - apply code_in_event_true in Hmine. by rewrite Hmine.
  - apply code_anywhere_false in Hnone. rewrite Hnone. by rewrite orb_true_r.
Qed.

End Code.

Lemma guid_fallback_witness :
  resolve_code store_code_taken 1 talk_a = ok (Some (str_take 16 guid1)).
Proof.
  apply (guid_fallback store_code_taken 1%nat talk_a "1" guid1).
  - reflexivity.
  - reflexivity.
  - exists (taken 2 "1"). split; [apply list_elem_of_here|]. split; [done|reflexivity].
  - intros sub ->%list_elem_of_singleton. done.
  - right. intros sub ->%list_elem_of_singleton. reflexivity.
Defined.

(** ** The monad *)

Lemma bind_ok_inv {A B} (c : M A) (k : A → M B) s b s' :
  bind c k s = (inr b, s') →
  ∃ a s1, c s = (inr a, s1) ∧ k a s1 = (inr b, s').
Proof.
  unfold bind. destruct (c s) as [[e|a] s1]; [done|]. eauto.
Qed.

Lemma bind_ok_intro {A B} (c : M A) (k : A → M B) s a s1 :
  c s = (inr a, s1) → bind c k s = k a s1.
Proof. unfold bind. by intros ->. Qed.

Lemma bind_lift_ok {A B} (r : result A) (k : A → M B) a s :
  r = ok a → bind (lift r) k s = k a s.
Proof. by intros ->. Qed.

Lemma bind_gets {A B} (f : Store → A) (k : A → M B) s :
  bind (gets f) k s = k (f s) s.
Proof. reflexivity. Qed.

Lemma bind_modify {B} (f : Store → Store) (k : unit → M B) s :
  bind (modify f) k s = k tt (f s).
Proof. reflexivity. Qed.

Ltac run_m :=
  repeat first
    [ rewrite bind_gets
    | rewrite bind_modify
    | progress cbv beta iota delta [ret throw lift] ].

(** ** tasks.py: speakers *)

Lemma str_take_length n x : (String.length (str_take n x) ≤ n)%nat.
Proof.
  revert x. induction n as [|n IH]; intros [|c r]; simpl; try lia.
  specialize (IH r). lia.
Qed.

Lemma str_take_long x : (String.length x > 60)%nat → x ≠ str_take 60 x.
Proof.
  intros Hlen Heq. pose proof (str_take_length 60 x) as Hle.
  rewrite <-Heq in Hle. lia.
Qed.

Lemma head_filter_None {A} (P : A → Prop) `{∀ x, Decision (P x)} (l : list A) :
  (∀ x, x ∈ l → ¬ P x) → head (filter P l) = None.
Proof.
  intros Hno. destruct (filter P l) as [|x rest] eqn:Hf; [done|].
  assert (x ∈ filter P l) as [HP Hin]%list_elem_of_filter
    by (rewrite Hf; apply list_elem_of_here).
  by destruct (Hno x Hin).
Qed.

Section Speakers.

Context (ev : nat) (person : element) (name : string).
Hypothesis person_name : text person = Some name.

(** Lines 170-174 when the lookup finds nobody and the address is free. *)
Lemma resolve_speaker_new s :
  (∀ u, u ∈ users s → user_name u ≠ str_take 60 name) →
  (∀ u, u ∈ users s → user_email u ≠ name +:+ "@localhost") →
  let u := {| user_pk := next_pk (user_pk <$> users s); user_name := name;
              user_email := name +:+ "@localhost" |} in
  resolve_speaker ev person s =
    (inr u, with_speaker_profiles
              (λ l, l ++ [{| sp_user := user_pk u; sp_event := ev |}])
              (with_users (λ l, l ++ [u]) s)).
Proof.
  intros Hno Hfree u. unfold resolve_speaker. rewrite person_name.
  rewrite bind_gets, head_filter_None by done. rewrite !bind_gets.
  unfold email_taken. rewrite bool_decide_eq_false_2; [by run_m|].
  intros (x & Hx & Hmail)%Exists_exists. by apply (Hfree x).
Qed.

(** Lines 170-173 when the lookup finds nobody and the address is taken. *)
Lemma resolve_speaker_refused s :
  (∀ u, u ∈ users s → user_name u ≠ str_take 60 name) →
  (∃ u, u ∈ users s ∧ user_email u = name +:+ "@localhost") →
  resolve_speaker ev person s = (inl IntegrityError, s).
Proof.
  intros Hno Htaken. unfold resolve_speaker. rewrite person_name.
  rewrite bind_gets, head_filter_None by done. rewrite !bind_gets.
  unfold email_taken. rewrite bool_decide_eq_true_2; [done|].
  by apply Exists_exists.
Qed.

(** C10, as amended: the lookup of line 170 is by the name cut to 60
    characters, the row of line 172 holds the whole name. For a name of
    more than 60 characters, a person stored under the whole name is never
    among the rows the lookup selects. Resolving the name again, on the
    store the first resolution left or on any later store that still holds
    that person and nobody under the cut name, finds nobody and goes on to
    insert a person with the same synthesized address: the insert is
    refused with [IntegrityError], and no person is created. *)
Theorem long_name_is_not_matched_again s :
  (String.length name > 60)%nat →
  (∀ u, u ∈ users s → user_name u ≠ str_take 60 name) →
  (∀ u, u ∈ users s → user_email u ≠ name +:+ "@localhost") →
  (∀ s' u, u ∈ users s' → user_name u = name →
           u ∉ filter (λ x, user_name x = str_take 60 name) (users s')) ∧
  ∃ u1 s1,
    resolve_speaker ev person s = (inr u1, s1) ∧
    users s1 = users s ++ [u1] ∧
    user_name u1 = name ∧ user_email u1 = name +:+ "@localhost" ∧
    resolve_speaker ev person s1 = (inl IntegrityError, s1) ∧
    ∀ s', u1 ∈ users s' →
          (∀ u, u ∈ users s' → user_name u ≠ str_take 60 name) →
          resolve_speaker ev person s' = (inl IntegrityError, s').
Proof.
  intros Hlen Hno Hfree. split.
  - intros s' u _ Hname [Hcut _]%list_elem_of_filter.
    apply (str_take_long name Hlen). congruence.
  - eexists _, _. split; [by apply resolve_speaker_new|]. simpl.
    split_and!; try done.
    + apply resolve_speaker_refused.
      * simpl. intros u [Hu| ->%list_elem_of_singleton]%elem_of_app; [by apply Hno|].
        simpl. by apply str_take_long.
      * eexists. split; [apply elem_of_app; right; apply list_elem_of_here|done].
    + intros s' Hin Hno'. apply resolve_speaker_refused; [done|].
      eexists. split; [exact Hin|done].
Qed.

End Speakers.

Lemma long_name_is_not_matched_again_witness :
  ∃ u1 s1,
    resolve_speaker 1 long_person store0 = (inr u1, s1) ∧
    users s1 = users store0 ++ [u1] ∧
    user_name u1 = long_name ∧ user_email u1 = long_name +:+ "@localhost" ∧
    resolve_speaker 1 long_person s1 = (inl IntegrityError, s1) ∧
    ∀ s', u1 ∈ users s' →
          (∀ u, u ∈ users s' → user_name u ≠ str_take 60 long_name) →
          resolve_speaker 1 long_person s' = (inl IntegrityError, s').
Proof.
  apply (long_name_is_not_matched_again 1%nat long_person long_name eq_refl store0).
  - vm_compute. lia.
  - intros u Hu. by apply elem_of_nil in Hu.
  - intros u Hu. by apply elem_of_nil in Hu.
Defined.

(** C10, as stated, at the name of 61 characters resolved twice, the
    second time on the store the first resolution left: the claim has the
    second resolution create another person. It creates none; the insert
    of line 173 is refused. *)
Lemma long_name_second_person_is_refused :
  ¬ (∃ u1 s1 u2 s2,
       resolve_speaker 1 long_person store0 = (inr u1, s1) ∧
       resolve_speaker 1 long_person s1 = (inr u2, s2)).
Proof.
  intros (u1 & s1 & u2 & s2 & H1 & H2).
  assert (s1 = (resolve_speaker 1 long_person store0).2) as -> by by rewrite H1.
  vm_compute in H2. done.
Qed.

(** The same through [process_frab]: the second import of a document with
    that speaker raises, and the store stays as the first import left it. *)
Example long_name_second_import_raises :
  ∃ r1 s1,
    process_frab (env "") doc_long conf false store0 = (inr r1, s1) ∧
    user_name <$> users s1 = [long_name] ∧
    process_frab (env "") doc_long conf false s1 = (inl IntegrityError, s1).
Proof.
  eexists _, _. split; [vm_compute; reflexivity|].
  split; [reflexivity|]. vm_compute. reflexivity.
Qed.

(** ** tasks.py: submission types *)

Section SubmissionTypes.

Context (ev : nat) (talk : element) (duration : Z).

(** Lines 100-109 for a talk that names its type: the type is looked up
    and created under the same name, so resolving a second time finds the
    type of the first time and creates nothing. *)
Lemma resolve_submission_type_named (n : string) s t s1 :
  text_of (find "type" talk) = ok (Some n) → n ≠ "" →
  resolve_submission_type ev talk duration s = (inr t, s1) →
  resolve_submission_type ev talk duration s1 = (inr t, s1).
Proof.
  intros Hname Hn. unfold resolve_submission_type.
  rewrite !(bind_lift_ok _ _ _ _ Hname), !bind_gets.
  destruct (head (filter _ (submission_types s))) as [t0|] eqn:Hhead.
  - intros [= <- <-]. by rewrite Hhead.
  - run_m. intros [= <- <-]. simpl.
    rewrite filter_app.
    assert (filter (λ t, st_event t = ev ∧ Some (st_name t) = Some n
                         ∧ st_default_duration t = duration) (submission_types s) = [])
      as -> by by destruct (filter _ (submission_types s)).
    simpl. rewrite !py_or_str by done.
    by rewrite filter_cons_True.
Qed.

End SubmissionTypes.

(** C9, at a talk with an empty [<type>] and a duration of 00:30, merged
    twice into an empty store: the lookup of line 101 is by the name
    [None], the row of line 106 is named "default", so the second merge
    finds no type and creates a second one of the same name and
    duration. *)
Theorem untyped_talk_creates_type_again :
  text_of (find "type" talk_untyped) = ok None ∧
  ∃ c1 s1 c2 s2,
    _create_talk (env "") talk_untyped hall conf store0 = (inr c1, s1) ∧
    _create_talk (env "") talk_untyped hall conf s1 = (inr c2, s2) ∧
    (λ t, (st_name t, st_default_duration t)) <$> submission_types s1
      = [("default", 30)] ∧
    (λ t, (st_name t, st_default_duration t)) <$> submission_types s2
      = [("default", 30); ("default", 30)].
Proof.
  split; [reflexivity|].
  eexists _, _, _, _. split; [vm_compute; reflexivity|].
  split; [vm_compute; reflexivity|]. split; reflexivity.
Qed.

(** The same talk with its type named is merged twice with one type. *)
Example typed_talk_keeps_one_type :
  ∃ c1 s1 c2 s2,
    _create_talk (env "") talk_a hall conf store0 = (inr c1, s1) ∧
    _create_talk (env "") talk_a hall conf s1 = (inr c2, s2) ∧
    (λ t, (st_name t, st_default_duration t)) <$> submission_types s2
      = [("Talk", 30)].
Proof.
  eexists _, _, _, _. split; [vm_compute; reflexivity|].
  split; [vm_compute; reflexivity|]. reflexivity.
Qed.

(** ** tasks.py: what a failed run leaves behind *)

Section Failsafe.

Context {A B : Type}.

Lemma readonly_failsafe (c : M A) : readonly c → failsafe c.
Proof. intros Hro s e s' Hc. specialize (Hro s). by rewrite Hc in Hro. Qed.

Lemma unfailing_failsafe (c : M A) : unfailing c → failsafe c.
Proof. intros Hun s e s' Hc. by destruct (Hun s e s'). Qed.

Lemma readonly_gets (f : Store → A) : readonly (gets f).
Proof. done. Qed.

Lemma readonly_lift (r : result A) : readonly (lift r).
Proof. done. Qed.

Lemma readonly_throw (e : exn) : readonly (throw (A := A) e).
Proof. done. Qed.

Lemma readonly_bind (c : M A) (k : A → M B) :
  readonly c → (∀ a, readonly (k a)) → readonly (bind c k).
Proof.
  intros Hc Hk s. unfold bind. specialize (Hc s).
  destruct (c s) as [[e|a] s1]; simpl in *; subst; [done|apply Hk].
Qed.

(** The decorator of [process_frab]. *)
Lemma failsafe_atomic (c : M A) : failsafe (atomic c).
Proof.
  intros s e s'. unfold atomic.
  destruct (c s) as [[e'|a] s1]; [by intros [= _ <-]|done].
Qed.

Lemma failsafe_bind_readonly (c : M A) (k : A → M B) :
  readonly c → (∀ a, failsafe (k a)) → failsafe (bind c k).
Proof.
  intros Hc Hk s e s'. unfold bind. specialize (Hc s).
  destruct (c s) as [[e'|a] s1]; simpl in *; subst; [by intros [= _ <-]|apply Hk].
Qed.

Lemma failsafe_bind_unfailing (c : M A) (k : A → M B) :
  failsafe c → (∀ a, unfailing (k a)) → failsafe (bind c k).
Proof.
  intros Hc Hk s e s'. unfold bind.
  destruct (c s) as [[e'|a] s1] eqn:Hcs.
  - intros [= <- <-]. by eapply Hc.
  - intros Hka. by destruct (Hk a s1 e s').
Qed.

End Failsafe.

Lemma unfailing_modify (f : Store → Store) : unfailing (modify f).
Proof. done. Qed.

Lemma readonly_get_event slug : readonly (get_event slug).
Proof. apply readonly_bind; [apply readonly_gets|intros; apply readonly_lift]. Qed.

Lemma failsafe_import_document E now event content :
  failsafe (import_document E now event content).
Proof.
  unfold import_document.
  apply failsafe_bind_readonly; [apply readonly_lift|intros root].
  apply failsafe_bind_readonly; [apply readonly_lift|intros v].
  apply failsafe_bind_readonly; [apply readonly_gets|intros rnv].
  apply failsafe_bind_unfailing; [apply failsafe_atomic|].
  intros r. apply unfailing_modify.
Qed.

(** Whatever makes the task raise, the store is the one the task found:
    every write of the run is inside [process_frab], and the result of
    line 52 is written after it has returned. *)
Lemma failsafe_task E now slug : failsafe (task_refresh_upstream_schedule E now slug).
Proof.
  unfold task_refresh_upstream_schedule.
  apply failsafe_bind_readonly; [apply readonly_get_event|intros event].
  apply failsafe_bind_readonly; [apply readonly_gets|intros url].
  destruct (negb (truthy url)); [apply readonly_failsafe, readonly_throw|].
  apply failsafe_bind_readonly; [apply readonly_lift|intros body].
  apply failsafe_bind_readonly; [apply readonly_lift|intros content].
  apply failsafe_bind_readonly; [apply readonly_gets|intros last_result].
  destruct (up_to_date E last_result (sha256_of body)).
  - apply unfailing_failsafe, unfailing_modify.
  - apply failsafe_import_document.
Qed.

(** C2: when the release fails, the run ends with the store it started
    from: no room, track, type, talk, speaker or slot of the run is kept,
    and no result is recorded. *)
Theorem release_failure_leaves_store E now slug s name version s' :
  task_refresh_upstream_schedule E now slug s = (inl (ReleaseFailed name version), s') →
  s' = s.
Proof. apply failsafe_task. Qed.

Lemma release_failure_leaves_store_witness :
  (task_refresh_upstream_schedule (env_no_release "<schedule v1/>") 100 "conf" store0).2
  = store0.
Proof.
  apply (release_failure_leaves_store (env_no_release "<schedule v1/>") 100 "conf"
           store0 "Conf" (Some "1.0")).
  vm_compute. reflexivity.
Defined.

(** In that run the merge had written its rows when the release failed;
    it is the decorator that takes them back. *)
Example release_failure_after_writes :
  ∃ s1, process_frab_body (env_no_release "") doc_v1 conf true store0
        = (inl (ReleaseFailed "Conf" (Some "1.0")), s1) ∧
        room_name <$> rooms s1 = ["Hall"] ∧ sub_code <$> submissions s1 = ["1"] ∧
        user_name <$> users s1 = ["Ada"] ∧ length (slots s1) = 1%nat.
Proof. eexists. split; [vm_compute; reflexivity|]. repeat split; reflexivity. Qed.

(** C1, at an event whose last import stored the very content that is
    fetched again: the second run does not stop at line 42. It parses and
    merges the document and records a second result, and no last-sync
    time is written. Line 40 compares the hash object with the stored
    checksum, which never holds ([up_to_date_never]). *)
Theorem identical_content_is_imported_again :
  ∃ s1 s2,
    task_refresh_upstream_schedule (env "<schedule v1/>") 100 "conf" store0
      = (inr tt, s1) ∧
    task_refresh_upstream_schedule (env "<schedule v1/>") 200 "conf" s1
      = (inr tt, s2) ∧
    (λ r, (ur_timestamp r, ur_content r)) <$> upstream_results s1
      = [(100, "<schedule v1/>")] ∧
    (λ r, (ur_timestamp r, ur_content r)) <$> upstream_results s2
      = [(100, "<schedule v1/>"); (200, "<schedule v1/>")] ∧
    get_setting s2 1 "upstream_last_sync" = PyNone.
Proof.
  eexists _, _. split; [vm_compute; reflexivity|].
  split; [vm_compute; reflexivity|]. repeat split; reflexivity.
Qed.

(** ** tasks.py: the change set of one talk *)

Lemma field_name_inj f g : field_name f = field_name g → f = g.
Proof. by destruct f, g. Qed.

Lemma getattr_setattr_eq sub f v : getattr (setattr sub f v) f = v.
Proof. by destruct f. Qed.

Lemma getattr_setattr_ne sub f g v : f ≠ g → getattr (setattr sub f v) g = getattr sub g.
Proof. by destruct f, g. Qed.

Lemma sub_code_setattr sub f v : sub_code (setattr sub f v) = sub_code sub.
Proof. reflexivity. Qed.

Section TrackChanges.

(** Lines 162-165, field by field: a field that differs is recorded with
    the stored and the new value, any other field is not recorded. *)
Lemma foldl_track_field_lookup data : ∀ changes sub name,
  NoDup data.*1 →
  (foldl track_field (changes, sub) data).1 !! name =
    match entry_of name data with
    | Some (f, v) =>
        if py_eq (getattr sub f) v then changes !! name
        else Some (Change (getattr sub f) v)
    | None => changes !! name
    end.
Proof.
  induction data as [|[k v] rest IH]; intros changes sub name Hnd; [done|].
  apply NoDup_cons in Hnd as [Hk Hnd]. simpl in Hk.
  unfold entry_of. simpl foldl. rewrite filter_cons. simpl.
  destruct (decide (field_name k = name)) as [<-|Hne]; simpl.
  - assert (entry_of (field_name k) rest = None) as Hrest.
    { apply head_filter_None. intros [f w] Hin Heq%field_name_inj.
      simpl in Heq. subst f. apply Hk, list_elem_of_fmap. by exists (k, w). }
    destruct (py_eq (getattr sub k) v); simpl; rewrite IH, Hrest by done;
      [done|by rewrite lookup_insert_eq].
  - fold (entry_of name rest).
    assert (∀ f w, entry_of name rest = Some (f, w) → k ≠ f) as Hother.
    { unfold entry_of. intros f w Hhead ->.
      destruct (filter _ rest) as [|x l] eqn:Hf; [done|]. injection Hhead as ->.
      assert ((f, w) ∈ filter (λ kv, field_name kv.1 = name) rest)
        as [Hn _]%list_elem_of_filter by (rewrite Hf; apply list_elem_of_here).
      by apply Hne. }
    destruct (py_eq (getattr sub k) v); simpl; rewrite IH by done; [done|].
    rewrite lookup_insert_ne by done.
    destruct (entry_of name rest) as [[f w]|] eqn:Hentry; [|done].
    by rewrite getattr_setattr_ne by by eapply Hother.
Qed.

Lemma foldl_track_field_code data : ∀ changes sub,
  sub_code (foldl track_field (changes, sub) data).2 = sub_code sub.
Proof.
  induction data as [|[k v] rest IH]; intros changes sub; [done|].
  simpl. destruct (py_eq (getattr sub k) v); simpl; by rewrite IH.
Qed.

Lemma nodup_keys_value (data : list (field * pyval)) f v w :
  NoDup data.*1 → (f, v) ∈ data → (f, w) ∈ data → v = w.
Proof.
  induction data as [|[k x] rest IH]; intros Hnd Hv Hw; [by apply elem_of_nil in Hv|].
  apply NoDup_cons in Hnd as [Hk Hnd]. simpl in Hk.
  apply elem_of_cons in Hv as [Hv|Hv]; apply elem_of_cons in Hw as [Hw|Hw].
  - congruence.
  - injection Hv as -> ->. destruct Hk. apply list_elem_of_fmap. by exists (k, w).
  - injection Hw as -> ->. destruct Hk. apply list_elem_of_fmap. by exists (k, v).
  - by apply IH.
Qed.

Lemma entry_of_Some name data f v :
  entry_of name data = Some (f, v) → (f, v) ∈ data ∧ field_name f = name.
Proof.
  unfold entry_of. intros Hhead.
  destruct (filter _ data) as [|x l] eqn:Hf; [done|]. injection Hhead as ->.
  assert ((f, v) ∈ filter (λ kv, field_name kv.1 = name) data)
    as [Hn Hin]%list_elem_of_filter by (rewrite Hf; apply list_elem_of_here).
  done.
Qed.

Lemma entry_of_elem data f v :
  NoDup data.*1 → (f, v) ∈ data → entry_of (field_name f) data = Some (f, v).
Proof.
  intros Hnd Hin. unfold entry_of.
  destruct (filter _ data) as [|[g w] l] eqn:Hf.
  - assert ((f, v) ∈ filter (λ kv, field_name kv.1 = field_name f) data) as Hin'
      by by apply list_elem_of_filter.
    rewrite Hf in Hin'. by apply elem_of_nil in Hin'.
  - assert ((g, w) ∈ filter (λ kv, field_name kv.1 = field_name f) data)
      as [Hn Hgw]%list_elem_of_filter by (rewrite Hf; apply list_elem_of_here).
    simpl in Hn. apply field_name_inj in Hn as ->. simpl. do 2 f_equal.
    by eapply nodup_keys_value.
Qed.

(** The change set of the fields: exactly the fields that differ, each
    with the stored and the new value. *)
Lemma track_changes_spec sub data name c :
  NoDup data.*1 →
  (track_changes sub data).1 !! name = Some c ↔
  ∃ f v, (f, v) ∈ data ∧ name = field_name f ∧
         py_eq (getattr sub f) v = false ∧ c = Change (getattr sub f) v.
Proof.
  intros Hnd. unfold track_changes. rewrite foldl_track_field_lookup by done.
  split.
  - destruct (entry_of name data) as [[f v]|] eqn:Hentry; [|by rewrite lookup_empty].
    apply entry_of_Some in Hentry as [Hin <-].
    destruct (py_eq (getattr sub f) v) eqn:Heq; [by rewrite lookup_empty|].
    intros [= <-]. by exists f, v.
  - intros (f & v & Hin & -> & Heq & ->).
    by rewrite (entry_of_elem _ _ _ Hnd Hin), Heq.
Qed.

Lemma track_changes_empty sub data :
  NoDup data.*1 →
  (track_changes sub data).1 = ∅ ↔
  ∀ f v, (f, v) ∈ data → py_eq (getattr sub f) v = true.
Proof.
  intros Hnd. split.
  - intros Hempty f v Hin. destruct (py_eq (getattr sub f) v) eqn:Heq; [done|].
    assert ((track_changes sub data).1 !! field_name f = Some (Change (getattr sub f) v))
      as Hsome by (apply track_changes_spec; [done|by exists f, v]).
    by rewrite Hempty, lookup_empty in Hsome.
  - intros Hall. apply map_eq. intros name. rewrite lookup_empty.
    destruct (_ !! name) as [c|] eqn:Hc; [|done].
    apply track_changes_spec in Hc as (f & v & Hin & _ & Heq & _); [|done].
    by rewrite (Hall f v Hin) in Heq.
Qed.

End TrackChanges.

Lemma change_tracking_data_keys talk optout data :
  change_tracking_data talk optout = ok data →
  data.*1 = [title; description; abstract; content_locale; do_not_record].
Proof.
  unfold change_tracking_data.
  destruct (text_of (find "title" talk)) as [|t]; [done|].
  destruct (text_of (find "description" talk)) as [|d]; [done|].
  destruct (text_of (find "abstract" talk)) as [|a]; [done|].
  destruct (text_of (find "language" talk)) as [|l]; [done|].
  destruct (text_of (find "subtitle" talk)) as [|st]; [done|].
  rewrite !rbind_ok. by intros [= <-].
Qed.

Lemma change_tracking_data_nodup talk optout data :
  change_tracking_data talk optout = ok data → NoDup data.*1.
Proof.
  intros ->%change_tracking_data_keys.
  by apply (bool_decide_unpack _).
Qed.

Lemma lift_ok_inv {A} (r : result A) s a s' :
  lift r s = (inr a, s') → r = ok a ∧ s' = s.
Proof. unfold lift. by intros [= -> ->]. Qed.

(** The blocks before line 142 do not touch the talks. *)
Lemma resolve_submission_type_submissions ev talk d s r s' :
  resolve_submission_type ev talk d s = (r, s') → submissions s' = submissions s.
Proof.
  unfold resolve_submission_type, bind at 1, lift.
  destruct (text_of (find "type" talk)) as [e|name]; [by intros [= _ <-]|].
  rewrite bind_gets. destruct (head _); run_m; by intros [= _ <-].
Qed.

Lemma resolve_track_submissions ev talk s r s' :
  resolve_track ev talk s = (r, s') → submissions s' = submissions s.
Proof.
  unfold resolve_track, bind at 1, lift.
  destruct (text_of (find "track" talk)) as [e|[n|]]; [by intros [= _ <-]| |by intros [= _ <-]].
  rewrite bind_gets. destruct (filter _ (filter _ _)); run_m; by intros [= _ <-].
Qed.

Lemma resolve_code_submissions s1 s2 ev talk :
  submissions s1 = submissions s2 → resolve_code s1 ev talk = resolve_code s2 ev talk.
Proof.
  intros Heq. unfold resolve_code, code_in_event, code_anywhere. by rewrite Heq.
Qed.

Lemma get_or_create_submission_inv E ev code st s sub created s' :
  get_or_create_submission E ev code st s = (inr (sub, created), s') →
  let stored := filter (λ x, sub_event x = ev ∧ Some (sub_code x) = code) (submissions s) in
  (stored = [] ∧ created = true) ∨ (stored = [sub] ∧ created = false).
Proof.
  unfold get_or_create_submission. rewrite bind_gets.
  destruct (filter _ (submissions s)) as [|x [|y l]]; run_m.
  - intros [= _ <- _]. by left.
  - intros [= <- <- _]. by right.
  - done.
Qed.

Lemma contribution_nonempty created code changes :
  contribution created code changes ≠ ∅ ↔ created = false ∧ changes ≠ ∅.
Proof.
  unfold contribution. destruct created; simpl; [split; [done|by intros [? _]]|].
  destruct (decide (changes = ∅)) as [->|Hne].
  - rewrite bool_decide_eq_true_2 by done. simpl. split; [done|by intros [_ ?]].
  - rewrite bool_decide_eq_false_2 by done. simpl. split; [done|].
    intros _ Hempty. by apply (map_non_empty_singleton code changes).
Qed.

(** What [_create_talk] returns, read off its last lines. *)
Lemma create_talk_returns E talk room event s contrib s' :
  _create_talk E talk room event s = (inr contrib, s') →
  ∃ code data stored_sub created,
    resolve_code s (ev_pk event) talk = ok code ∧
    change_tracking_data talk (optout_of talk) = ok data ∧
    (let stored := filter (λ x, sub_event x = ev_pk event ∧ Some (sub_code x) = code)
                          (submissions s) in
     (stored = [] ∧ created = true) ∨ (stored = [stored_sub] ∧ created = false)) ∧
    ∃ changes, contrib = contribution created (sub_code stored_sub) changes ∧
      ∀ name c, changes !! name = Some c ↔
        ∃ f v, (f, v) ∈ data ∧ name = field_name f ∧
               py_eq (getattr stored_sub f) v = false ∧
               c = Change (getattr stored_sub f) v.
Proof.
  unfold _create_talk. intros H.
  apply bind_ok_inv in H as (times & s0 & Ht & H).
  apply lift_ok_inv in Ht as [Ht ->]. destruct times as [[start end_] dim].
  apply bind_ok_inv in H as (sub_type & s1 & Hst & H).
  apply bind_ok_inv in H as (track & s2 & Htr & H).
  apply bind_ok_inv in H as (code & s2' & Hcode & H).
  injection Hcode as Hcode <-.
  apply bind_ok_inv in H as ([sub created] & s3 & Hgot & H).
  apply bind_ok_inv in H as (data & s3' & Hdata & H).
  apply lift_ok_inv in Hdata as [Hdata ->].
  destruct (track_changes _ data) as [changes sub'] eqn:Htc.
  apply bind_ok_inv in H as ([] & s4 & _ & H).
  apply bind_ok_inv in H as (persons & s5 & _ & H).
  apply bind_ok_inv in H as ([] & s6 & _ & H).
  apply bind_ok_inv in H as ([] & s7 & _ & H).
  injection H as <- _.
  assert (submissions s2 = submissions s) as Hsubs.
  { rewrite (resolve_track_submissions _ _ _ _ _ Htr).
    by rewrite (resolve_submission_type_submissions _ _ _ _ _ _ Hst). }
  apply get_or_create_submission_inv in Hgot. rewrite Hsubs in Hgot.
  exists code, data, sub, created. split.
  { by rewrite <-(resolve_code_submissions s2 s _ _ Hsubs). }
  split; [done|]. split; [done|].
  exists changes. split.
  { f_equal. change sub' with (changes, sub').2. rewrite <-Htc.
    unfold track_changes. by rewrite foldl_track_field_code. }
  intros name c. change changes with (changes, sub').1. rewrite <-Htc.
  by rewrite track_changes_spec by by eapply change_tracking_data_nodup.
Qed.

(** C5, as amended: the merge of a talk record reports a non-empty change
    set exactly when a talk of the event with the resolved code is in the
    store at the time the record is merged and one of the tracked fields
    differs from what is stored; the change set is then the stored code
    with exactly the fields that differ, each with its stored and its new
    value. A talk that this merge creates is reported with an empty change
    set. *)
Theorem merged_talk_contribution E talk room event s contrib s' :
  _create_talk E talk room event s = (inr contrib, s') →
  ∃ code data,
    resolve_code s (ev_pk event) talk = ok code ∧
    change_tracking_data talk (optout_of talk) = ok data ∧
    let stored := filter (λ x, sub_event x = ev_pk event ∧ Some (sub_code x) = code)
                         (submissions s) in
    (stored = [] → contrib = ∅) ∧
    (contrib ≠ ∅ ↔
       ∃ sub, stored = [sub] ∧
              ∃ f v, (f, v) ∈ data ∧ py_eq (getattr sub f) v = false) ∧
    (∀ sub, stored = [sub] → contrib ≠ ∅ →
       ∃ diff, contrib = {[ sub_code sub := diff ]} ∧
         ∀ name c, diff !! name = Some c ↔
           ∃ f v, (f, v) ∈ data ∧ name = field_name f ∧
                  py_eq (getattr sub f) v = false ∧
                  c = Change (getattr sub f) v).
Proof.
  intros (code & data & ssub & created & Hcode & Hdata & Hstored & changes & -> & Hspec)
    %create_talk_returns.
  exists code, data. split; [done|]. split; [done|]. simpl in *.
  assert (changes ≠ ∅ ↔ ∃ f v, (f, v) ∈ data ∧ py_eq (getattr ssub f) v = false)
    as Hne.
  { split.
    - intros (name & c & Hc)%map_choose.
      apply Hspec in Hc as (f & v & Hin & _ & Hdiff & _). eauto.
    - intros (f & v & Hin & Hdiff) ->.
      assert ((∅ : gmap string change) !! field_name f
              = Some (Change (getattr ssub f) v)) as Hc
        by (apply Hspec; by exists f, v).
      by rewrite lookup_empty in Hc. }
  destruct Hstored as [[-> ->]|[-> ->]].
  - split; [done|]. split; [|done].
    rewrite contribution_nonempty. split; [by intros [? _]|by intros (? & ? & _)].
  - split; [done|]. rewrite contribution_nonempty. split.
    + rewrite Hne. split.
      * intros [_ (f & v & Hfv)]. exists ssub. eauto.
      * intros (sub & [= <-] & Hfv). eauto.
    + intros sub [= <-] [_ Hch]%contribution_nonempty. exists changes. split; [|done].
      unfold contribution. by rewrite bool_decide_eq_false_2.
Qed.

Lemma merged_talk_contribution_witness :
  ∃ code data,
    resolve_code store_a 1 talk_b = ok code ∧
    change_tracking_data talk_b (optout_of talk_b) = ok data ∧
    let stored := filter (λ x, sub_event x = 1%nat ∧ Some (sub_code x) = code)
                         (submissions store_a) in
    (stored = [] → title_a_to_b = ∅) ∧
    (title_a_to_b ≠ ∅ ↔
       ∃ sub, stored = [sub] ∧
              ∃ f v, (f, v) ∈ data ∧ py_eq (getattr sub f) v = false) ∧
    (∀ sub, stored = [sub] → title_a_to_b ≠ ∅ →
       ∃ diff, title_a_to_b = {[ sub_code sub := diff ]} ∧
         ∀ name c, diff !! name = Some c ↔
           ∃ f v, (f, v) ∈ data ∧ name = field_name f ∧
                  py_eq (getattr sub f) v = false ∧
                  c = Change (getattr sub f) v).
Proof.
  apply (merged_talk_contribution (env "") talk_b hall conf store_a title_a_to_b
           (_create_talk (env "") talk_b hall conf store_a).2).
  vm_compute. reflexivity.
Defined.

(** C5, as stated, at a document that lists talk "1" twice, with the
    titles "A" and "B", imported into a store without talks: the run
    creates the talk at the first record and reports a change of its
    title at the second. The claim has every reported talk in the store
    before the run. *)
Lemma created_talk_reports_change :
  ¬ (∀ changes schedule s',
       process_frab (env "") doc_twice conf false store0 = (inr (changes, schedule), s') →
       ∀ code, is_Some (changes !! code) →
               ∃ sub, sub ∈ submissions store0 ∧ sub_event sub = ev_pk conf
                      ∧ sub_code sub = code).
Proof.
  intros H.
  destruct (H title_a_to_b None (process_frab (env "") doc_twice conf false store0).2)
    with (code := "1") as (sub & Hin & _).
  - vm_compute. reflexivity.
  - vm_compute. eauto.
  - by apply elem_of_nil in Hin.
Qed.

(** ** tasks.py: the release *)

Lemma talks_fmap (g : TalkSlot → TalkSlot) s sch :
  (∀ sl, slot_schedule (g sl) = slot_schedule sl) →
  talks (with_slots (fmap g) s) sch = g <$> talks s sch.
Proof.
  intros Hg. unfold talks; simpl.
  induction (slots s) as [|sl l IH]; [done|].
  rewrite fmap_cons, !filter_cons, Hg.
  destruct (decide (slot_schedule sl = sch)); by rewrite ?fmap_cons, IH.
Qed.










(** The run of the witness sets both dates to 2024-01-01. *)
Example first_release_dates :
  (λ e, (ev_date_from e, ev_date_to e)) <$>
    events (task_refresh_upstream_schedule (env "<schedule v1/>") 100 "conf" store0).2
  = [(19723, 19723)].
Proof. reflexivity. Qed.

(** * Further properties of the code *)

(** ** signals.py: the trigger, event by event *)

(** X1: with no interval configured, an event that has an upstream URL is
    queued when no last synchronisation is recorded, and otherwise exactly
    when strictly more than five minutes have passed since it. *)
Theorem trigger_default_interval now s event :
  truthy (get_setting s (ev_pk event) "downstream_upstream_url") = true →
  get_setting s (ev_pk event) "downstream_interval" = PyNone →
  (get_setting s (ev_pk event) "downstream_last_sync" = PyNone →
   refresh_event now s event = ok (Some (ev_slug event))) ∧
  (∀ t, get_setting s (ev_pk event) "downstream_last_sync" = PyDatetime t →
        (now - t > 5 * us_per_minute → refresh_event now s event = ok (Some (ev_slug event))) ∧
        (now - t ≤ 5 * us_per_minute → refresh_event now s event = ok None)).
Proof.
  intros Hurl Hint.
  destruct (refresh_event_default_interval now s event Hurl Hint) as [Hnone Hsome].
  split; [done|]. intros t Ht. rewrite (Hsome t Ht). split; intros Hcmp.
  - by rewrite (proj2 (Z.gtb_gt _ _)) by lia.
  - destruct (Z.gtb_spec (now - t) (5 * us_per_minute)); [lia|done].
Qed.

Lemma trigger_default_interval_witness :
  refresh_event (5 * us_per_minute) (store_synced 0) conf = ok None ∧
  refresh_event (5 * us_per_minute + 1) (store_synced 0) conf = ok (Some "conf").
Proof.
  split.
  - destruct (trigger_default_interval (5 * us_per_minute) (store_synced 0) conf
                eq_refl eq_refl) as [_ H].
    destruct (H 0 eq_refl) as [_ Hle]. apply Hle. vm_compute. by intros [=].
  - destruct (trigger_default_interval (5 * us_per_minute + 1) (store_synced 0) conf
                eq_refl eq_refl) as [_ H].
    destruct (H 0 eq_refl) as [Hgt _]. apply Hgt. reflexivity.
Defined.

(** X2: events without an upstream URL are passed over: when no event has
    one, the trigger queues nothing and raises nothing, whatever else the
    settings hold. *)
Theorem trigger_skips_events_without_url now s :
  (∀ event, event ∈ events s →
            truthy (get_setting s (ev_pk event) "downstream_upstream_url") = false) →
  refresh_upstream_schedule now s = ([], None).
Proof.
  unfold refresh_upstream_schedule. generalize (events s).
  intros evs Hall. induction evs as [|e rest IH]; [done|].
  simpl. unfold refresh_event at 1.
  rewrite (Hall e) by apply list_elem_of_here. simpl.
  rewrite IH; [done|]. intros e' He'. by apply Hall, list_elem_of_further.
Qed.

Lemma trigger_skips_events_without_url_witness :
  refresh_upstream_schedule 0 store_no_url = ([], None).
Proof.
  apply (trigger_skips_events_without_url 0 store_no_url).
  intros event _. reflexivity.
Defined.



(** X4: the loop ends at the first event that raises: the events before
    it are handled, the exception is what the receiver raises, and the
    events after it are not looked at, due or not. *)
Theorem trigger_stops_at_first_error now s before event after e :
  (∀ x, x ∈ before → ∃ o, refresh_event now s x = ok o) →
  refresh_event now s event = raise e →
  refresh_events now s (before ++ event :: after) =
    ((refresh_events now s before).1, Some e).
Proof.
  intros Hbefore Hraise. induction before as [|b rest IH]; simpl.
  - by rewrite Hraise.
  - destruct (Hbefore b) as [o Ho]; [apply list_elem_of_here|]. rewrite Ho.
    rewrite IH by (intros x Hx; by apply Hbefore, list_elem_of_further).
    by destruct (refresh_events now s rest) as [q x], o.
Qed.

Lemma trigger_stops_at_first_error_witness :
  refresh_events 0 store_three ([conf] ++ other :: [third]) = (["conf"], Some ValueError).
Proof.
  apply (trigger_stops_at_first_error 0 store_three [conf] other [third] ValueError).
  - intros x ->%list_elem_of_singleton. by eexists.
  - reflexivity.
Defined.

(** X5: an interval stored as the integer 0 counts as unset and gives
    five minutes; any other integer is taken as it is, a negative one
    included. *)
Theorem interval_minutes_integer n :
  interval_minutes (PyInt n) = ok (if decide (n = 0) then 5 else n).
Proof.
  unfold interval_minutes, py_or; simpl.
  destruct (Z.eqb_spec n 0) as [->|Hn]; simpl; [done|by rewrite decide_False].
Qed.

(** ** tasks.py: how a run ends *)

(** X6: for an event without an upstream URL the task raises "No
    upstream URL was configured" before anything is fetched, and leaves
    the store alone. *)
Theorem task_without_url E now slug s event :
  get_event slug s = (inr event, s) →
  truthy (get_setting s (ev_pk event) "downstream_upstream_url") = false →
  task_refresh_upstream_schedule E now slug s = (inl NoUpstreamUrl, s).
Proof.
  intros Hev Hurl. unfold task_refresh_upstream_schedule.
  rewrite (bind_ok_intro _ _ _ _ _ Hev), bind_gets. by rewrite Hurl.
Qed.

Lemma task_without_url_witness :
  task_refresh_upstream_schedule (env "") 0 "conf" store_no_url
  = (inl NoUpstreamUrl, store_no_url).
Proof.
  apply (task_without_url (env "") 0 "conf" store_no_url conf); reflexivity.
Defined.

(** X7: when the upstream answers with a status other than 200, the task
    raises "Could not retrieve schedule" with that status; the body is not
    decoded or parsed and the store is left alone. *)
Theorem task_bad_status E now slug s event u status body :
  get_event slug s = (inr event, s) →
  get_setting s (ev_pk event) "downstream_upstream_url" = PyStr u →
  u ≠ "" →
  requests_get E u = ok (status, body) →
  status ≠ 200 →
  task_refresh_upstream_schedule E now slug s = (inl (CouldNotRetrieve status), s).
Proof.
  intros Hev Hurl Hu Hget Hstatus. unfold task_refresh_upstream_schedule.
  rewrite (bind_ok_intro _ _ _ _ _ Hev), bind_gets, Hurl. simpl.
  rewrite bool_decide_eq_false_2 by done. simpl.
  unfold bind, lift, fetch. rewrite Hget, rbind_ok. simpl.
  by destruct (Z.eqb_spec status 200).
Qed.

Lemma task_bad_status_witness :
  task_refresh_upstream_schedule env_down 0 "conf" store0
  = (inl (CouldNotRetrieve 503), store0).
Proof.
  apply (task_bad_status env_down 0 "conf" store0 conf url 503 ""); done.
Defined.

(** X8: whatever a run raises (an unknown event, a failed fetch, a
    document that does not parse, a talk that lacks a field, a failed
    release), it ends with the store it started from: no row of the run is
    kept and no result is recorded. *)
Theorem failed_run_leaves_store E now slug s e s' :
  task_refresh_upstream_schedule E now slug s = (inl e, s') → s' = s.
Proof. apply failsafe_task. Qed.

Lemma failed_run_leaves_store_witness :
  (task_refresh_upstream_schedule (env "<schedule") 0 "conf" store0).2 = store0.
Proof.
  apply (failed_run_leaves_store (env "<schedule") 0 "conf" store0 ParseError).
  vm_compute. reflexivity.
Defined.

(** ** tasks.py: what the merge keeps *)

Section Keeps.

#[local] Instance keeps_refl : Reflexive keeps.
Proof. intros s. unfold keeps. by split_and!. Qed.

#[local] Instance keeps_trans : Transitive keeps.
Proof.
  intros s1 s2 s3 (He & Hs & Hr & H1 & H2 & H3 & H4 & H5 & H6 & H7 & H8)
                  (He' & Hs' & Hr' & H1' & H2' & H3' & H4' & H5' & H6' & H7' & H8').
  unfold keeps. split_and!; try congruence; by etrans.
Qed.

Context {A B : Type}.

Lemma keeping_readonly (c : M A) : readonly c → keeping c.
Proof. intros Hro s. by rewrite Hro. Qed.

Lemma keeping_bind (c : M A) (k : A → M B) :
  keeping c → (∀ a, keeping (k a)) → keeping (bind c k).
Proof.
  intros Hc Hk s. unfold bind. specialize (Hc s).
  destruct (c s) as [[e|a] s1]; [done|]. etrans; [done|apply Hk].
Qed.

End Keeps.

Lemma keeping_modify (f : Store → Store) : (∀ s, keeps s (f s)) → keeping (modify f).
Proof. intros Hf s. apply Hf. Qed.

Lemma keeps_append_room r s : keeps s (with_rooms (λ l, l ++ [r]) s).
Proof. unfold keeps; simpl. split_and!; try done. by apply prefix_app_r. Qed.

Lemma keeps_append_submission_type t s :
  keeps s (with_submission_types (λ l, l ++ [t]) s).
Proof. unfold keeps; simpl. split_and!; try done. by apply prefix_app_r. Qed.

Lemma keeps_append_track t s : keeps s (with_tracks (λ l, l ++ [t]) s).
Proof. unfold keeps; simpl. split_and!; try done. by apply prefix_app_r. Qed.

Lemma keeps_append_user u s : keeps s (with_users (λ l, l ++ [u]) s).
Proof. unfold keeps; simpl. split_and!; try done. by apply prefix_app_r. Qed.

Lemma keeps_append_profile p s : keeps s (with_speaker_profiles (λ l, l ++ [p]) s).
Proof. unfold keeps; simpl. split_and!; try done. by apply prefix_app_r. Qed.

Lemma keeps_append_schedule sch s : keeps s (with_schedules (λ l, l ++ [sch]) s).
Proof. unfold keeps; simpl. split_and!; try done. by apply prefix_app_r. Qed.

Lemma keeps_append_submission x s : keeps s (with_submissions (λ l, l ++ [x]) s).
Proof.
  unfold keeps; simpl. split_and!; try done. rewrite fmap_app. by apply prefix_app_r.
Qed.

Lemma keeps_append_slot sl s : keeps s (with_slots (λ l, l ++ [sl]) s).
Proof.
  unfold keeps; simpl. split_and!; try done. rewrite fmap_app. by apply prefix_app_r.
Qed.

Lemma keeps_update_submissions (g : Submission → Submission) s :
  (∀ x, sub_pk (g x) = sub_pk x) → keeps s (with_submissions (fmap g) s).
Proof.
  intros Hg. unfold keeps; simpl. split_and!; try done.
  rewrite <-list_fmap_compose.
  by rewrite (list_fmap_ext (sub_pk ∘ g) sub_pk) by (intros; apply Hg).
Qed.

Lemma keeps_update_slots (g : TalkSlot → TalkSlot) s :
  (∀ x, slot_pk (g x) = slot_pk x) → keeps s (with_slots (fmap g) s).
Proof.
  intros Hg. unfold keeps; simpl. split_and!; try done.
  rewrite <-list_fmap_compose.
  by rewrite (list_fmap_ext (slot_pk ∘ g) slot_pk) by (intros; apply Hg).
Qed.

Ltac keeping_step :=
  first
    [ apply keeping_readonly, readonly_gets
    | apply keeping_readonly, readonly_lift
    | apply keeping_readonly, readonly_throw
    | apply keeping_readonly; intros ?; reflexivity
    | apply keeping_modify; intros ?;
      first [ apply keeps_append_room | apply keeps_append_submission_type
            | apply keeps_append_track | apply keeps_append_user
            | apply keeps_append_profile | apply keeps_append_schedule
            | apply keeps_append_submission | apply keeps_append_slot
            | apply keeps_update_submissions; intros ?; simpl; by destruct (decide _)
            | apply keeps_update_slots; intros ?; simpl; by destruct (decide _) ]
    | apply keeping_bind; [|intros ?] ].

Lemma keeping_wip_schedule ev : keeping (wip_schedule ev).
Proof.
  unfold wip_schedule. apply keeping_bind; [keeping_step|intros found].
  destruct found as [|x [|y l]]; repeat keeping_step.
Qed.

Lemma keeping_get_or_create_room ev name : keeping (get_or_create_room ev name).
Proof.
  unfold get_or_create_room. apply keeping_bind; [keeping_step|intros found].
  destruct found as [|x [|y l]]; repeat keeping_step.
Qed.

Lemma keeping_resolve_submission_type ev talk d :
  keeping (resolve_submission_type ev talk d).
Proof.
  unfold resolve_submission_type. apply keeping_bind; [keeping_step|intros name].
  apply keeping_bind; [keeping_step|intros found].
  destruct found; repeat keeping_step.
Qed.

Lemma keeping_resolve_track ev talk : keeping (resolve_track ev talk).
Proof.
  unfold resolve_track. apply keeping_bind; [keeping_step|intros [n|]]; [|keeping_step].
  apply keeping_bind; [keeping_step|intros found].
  destruct (filter _ found); repeat keeping_step.
Qed.

Lemma keeping_get_or_create_submission E ev code st :
  keeping (get_or_create_submission E ev code st).
Proof.
  unfold get_or_create_submission. apply keeping_bind; [keeping_step|intros found].
  destruct found as [|x [|y l]]; repeat keeping_step.
Qed.

Lemma keeping_resolve_speaker ev person : keeping (resolve_speaker ev person).
Proof.
  unfold resolve_speaker. destruct (text person); [|keeping_step].
  apply keeping_bind; [keeping_step|intros [u|]]; [keeping_step|].
  apply keeping_bind; [keeping_step|intros pk].
  apply keeping_bind; [keeping_step|intros taken].
  destruct taken; repeat keeping_step.
Qed.

Lemma keeping_add_speakers ev sub persons : keeping (add_speakers ev sub persons).
Proof.
  induction persons as [|p rest IH]; simpl; [keeping_step|].
  apply keeping_bind; [apply keeping_resolve_speaker|intros u].
  apply keeping_bind; [unfold add_speaker; keeping_step|intros _]. apply IH.
Qed.

Lemma keeping_upsert_slot ev sub room start end_ :
  keeping (upsert_slot ev sub room start end_).
Proof.
  unfold upsert_slot. apply keeping_bind; [apply keeping_wip_schedule|intros wip].
  apply keeping_bind.
  - unfold get_or_create_slot. apply keeping_bind; [keeping_step|intros found].
    destruct found as [|x [|y l]]; repeat keeping_step.
  - intros sl. unfold save_slot. keeping_step.
Qed.

Lemma keeping_create_talk E talk room event : keeping (_create_talk E talk room event).
Proof.
  unfold _create_talk.
  apply keeping_bind; [keeping_step|intros [[start end_] dim]].
  apply keeping_bind; [apply keeping_resolve_submission_type|intros sub_type].
  apply keeping_bind; [apply keeping_resolve_track|intros track].
  apply keeping_bind; [keeping_step|intros code].
  apply keeping_bind; [apply keeping_get_or_create_submission|intros [sub created]].
  apply keeping_bind; [keeping_step|intros data].
  destruct (track_changes _ data) as [changes sub'].
  apply keeping_bind; [unfold save_submission; keeping_step|intros _].
  apply keeping_bind; [keeping_step|intros persons].
  apply keeping_bind; [apply keeping_add_speakers|intros _].
  apply keeping_bind; [apply keeping_upsert_slot|intros _].
  keeping_step.
Qed.

Lemma keeping_merge_talks E event room evts : ∀ changes,
  keeping (merge_talks E event room evts changes).
Proof.
  induction evts as [|talk rest IH]; intros changes; simpl; [keeping_step|].
  apply keeping_bind; [apply keeping_create_talk|intros c]. apply IH.
Qed.

Lemma keeping_merge_rooms E event rms : ∀ changes,
  keeping (merge_rooms E event rms changes).
Proof.
  induction rms as [|rm rest IH]; intros changes; simpl; [keeping_step|].
  apply keeping_bind; [keeping_step|intros name].
  apply keeping_bind; [apply keeping_get_or_create_room|intros room].
  apply keeping_bind; [apply keeping_merge_talks|intros c]. apply IH.
Qed.

Lemma keeping_merge_days E event days : ∀ changes,
  keeping (merge_days E event days changes).
Proof.
  induction days as [|day rest IH]; intros changes; simpl; [keeping_step|].
  apply keeping_bind; [apply keeping_merge_rooms|intros c]. apply IH.
Qed.

(** X9: the merge of a document (lines 62-67), however far it gets, only
    adds to the rooms, submission types, tracks, persons, profiles and
    schedules, deletes no talk and no slot, and touches no event, no
    setting and no stored result. *)
Theorem merge_keeps_store E event root s :
  let s' := (merge_days E event (findall "day" root) ∅ s).2 in
  events s' = events s ∧ settings s' = settings s ∧
  upstream_results s' = upstream_results s ∧
  rooms s `prefix_of` rooms s' ∧
  submission_types s `prefix_of` submission_types s' ∧
  tracks s `prefix_of` tracks s' ∧
  users s `prefix_of` users s' ∧
  speaker_profiles s `prefix_of` speaker_profiles s' ∧
  schedules s `prefix_of` schedules s' ∧
  (sub_pk <$> submissions s) `prefix_of` (sub_pk <$> submissions s') ∧
  (slot_pk <$> slots s) `prefix_of` (slot_pk <$> slots s').
Proof. apply keeping_merge_days. Qed.

Lemma release_new_version_false s ev version cs :
  current_schedule s ev = Some cs → sched_version cs = version →
  release_new_version s ev version = false.
Proof.
  unfold release_new_version. intros -> <-.
  by rewrite py_eq_text, bool_decide_eq_true_2.
Qed.

(** X10: a run that completes for a document whose version is the version
    of the current release freezes nothing. It adds exactly one result to
    those stored, without a schedule, holding the fetched content, the
    change set of the merge and the time of the run; the events (their
    dates too) and the settings are as before and every schedule is as it
    was. *)
Theorem run_without_release E now slug s s' event body content root version cs :
  get_event slug s = (inr event, s) →
  fetch E (get_setting s (ev_pk event) "downstream_upstream_url") = ok body →
  decode E body = ok content →
  fromstring E content = ok root →
  text_of (find "version" root) = ok version →
  current_schedule s (ev_pk event) = Some cs →
  sched_version cs = version →
  task_refresh_upstream_schedule E now slug s = (inr tt, s') →
  ∃ changes s1,
    merge_days E event (findall "day" root) ∅ s = (inr changes, s1) ∧
    upstream_results s' =
      upstream_results s ++
      [ {| ur_event := ev_pk event; ur_schedule := None; ur_changes := changes;
           ur_content := content; ur_timestamp := now |} ] ∧
    events s' = events s ∧ settings s' = settings s ∧
    schedules s `prefix_of` schedules s'.
Proof.
  intros Hev Hfetch Hdec Hroot Hver Hcur Hsame H.
  unfold task_refresh_upstream_schedule in H.
  rewrite (bind_ok_intro _ _ _ _ _ Hev), bind_gets in H.
  destruct (negb (truthy _)); [done|].
  rewrite (bind_lift_ok _ _ _ _ Hfetch), (bind_lift_ok _ _ _ _ Hdec) in H.
  rewrite bind_gets, up_to_date_never in H.
  unfold import_document in H.
  rewrite (bind_lift_ok _ _ _ _ Hroot), (bind_lift_ok _ _ _ _ Hver) in H.
  rewrite bind_gets, (release_new_version_false _ _ _ _ Hcur Hsame) in H.
  apply bind_ok_inv in H as ([ch sch] & s4 & Hpf & H).
  injection H as <-.
  unfold process_frab, atomic in Hpf.
  destruct (process_frab_body E root event false s) as [[e|r] s5] eqn:Hbody; [done|].
  injection Hpf as -> ->.
  unfold process_frab_body in Hbody.
  apply bind_ok_inv in Hbody as (changes & s1 & Hmerge & Hret).
  injection Hret as <- <- <-.
  pose proof (keeping_merge_days E event (findall "day" root) ∅ s) as Hkeeps.
  rewrite Hmerge in Hkeeps. simpl in Hkeeps.
  destruct Hkeeps as (He & Hs & Hr & _ & _ & _ & _ & _ & Hsch & _).
  exists changes, s1. simpl. by rewrite Hr.
Qed.

Lemma run_without_release_witness :
  ∃ changes s1,
    merge_days (env "<schedule v1/>") (with_dates conf 19723 19723) (findall "day" doc_v1) ∅ store_released
      = (inr changes, s1) ∧
    upstream_results
      (task_refresh_upstream_schedule (env "<schedule v1/>") 200 "conf" store_released).2 =
      upstream_results store_released ++
      [ {| ur_event := 1; ur_schedule := None; ur_changes := changes;
           ur_content := "<schedule v1/>"; ur_timestamp := 200 |} ] ∧
    events (task_refresh_upstream_schedule (env "<schedule v1/>") 200 "conf"
              store_released).2 = events store_released ∧
    settings (task_refresh_upstream_schedule (env "<schedule v1/>") 200 "conf"
                store_released).2 = settings store_released ∧
    schedules store_released `prefix_of`
      schedules (task_refresh_upstream_schedule (env "<schedule v1/>") 200 "conf"
                   store_released).2.
Proof.
  apply (run_without_release (env "<schedule v1/>") 200 "conf" store_released _
           (with_dates conf 19723 19723)
           "<schedule v1/>" "<schedule v1/>" doc_v1 (Some "1.0")
           {| sched_pk := 1; sched_event := 1; sched_version := Some "1.0";
              sched_published := Some 1 |}).
  all: vm_compute; reflexivity.
Defined.

(** ** tasks.py: the release, when it cannot be made *)

Lemma bind_raise_intro {A B} (c : M A) (k : A → M B) s e s1 :
  c s = (inl e, s1) → bind c k s = (inl e, s1).
Proof. unfold bind. by intros ->. Qed.

Lemma release_empty E root event s version rel s2 :
  text_of (find "version" root) = ok version →
  freeze_wip E event version s = (inr rel, s2) →
  talks s2 (sched_pk rel) = [] →
  ∃ s3, release E root event s = (inl AttributeError, s3).
Proof.
  intros Hver Hfreeze Hempty. unfold release.
  rewrite (bind_lift_ok _ _ _ _ Hver), (bind_ok_intro _ _ _ _ _ Hfreeze).
  unfold show_talks. rewrite bind_modify.
  eexists. apply bind_raise_intro. unfold first_start. rewrite bind_gets.
  rewrite talks_fmap by (intros sl; by destruct (decide _)).
  by rewrite Hempty.
Qed.

(** X11: when the freeze succeeds but the release holds no slot (a
    document without talks for an event without slots), line 81 reads
    [None.start]: [process_frab] raises [AttributeError] and, being
    atomic, leaves the store as it was, the freeze undone. *)
Theorem release_without_slots_raises E root event s changes s1 version rel s2 :
  merge_days E event (findall "day" root) ∅ s = (inr changes, s1) →
  text_of (find "version" root) = ok version →
  freeze_wip E event version s1 = (inr rel, s2) →
  talks s2 (sched_pk rel) = [] →
  process_frab E root event true s = (inl AttributeError, s).
Proof.
  intros Hmerge Hver Hfreeze Hempty.
  destruct (release_empty E root event s1 version rel s2 Hver Hfreeze Hempty)
    as [s3 Hrel].
  unfold process_frab, atomic, process_frab_body.
  rewrite (bind_ok_intro _ _ _ _ _ Hmerge).
  by rewrite (bind_raise_intro _ _ _ _ _ Hrel).
Qed.

Lemma release_without_slots_raises_witness :
  process_frab (env "") doc_empty conf true store0 = (inl AttributeError, store0).
Proof.
  apply (release_without_slots_raises (env "") doc_empty conf store0 ∅ store0
           (Some "1.0")
           {| sched_pk := 1; sched_event := 1; sched_version := Some "1.0";
              sched_published := Some 1 |}
           (freeze_wip (env "") conf (Some "1.0") store0).2).
  all: vm_compute; reflexivity.
Defined.

(** X12: when [Schedule.freeze] raises, whatever it raises, [process_frab]
    raises the "Could not import" exception naming the event and the
    version of the document, and the merge that went before is rolled
    back. *)
Theorem failed_freeze_raises_release_failed E root event s changes s1 version wip s2 e :
  merge_days E event (findall "day" root) ∅ s = (inr changes, s1) →
  text_of (find "version" root) = ok version →
  wip_schedule (ev_pk event) s1 = (inr wip, s2) →
  freeze E (sched_pk wip) version false s2 = raise e →
  process_frab E root event true s
  = (inl (ReleaseFailed (ev_name event) version), s).
Proof.
  intros Hmerge Hver Hwip Hfreeze.
  unfold process_frab, atomic, process_frab_body.
  rewrite (bind_ok_intro _ _ _ _ _ Hmerge).
  assert (release E root event s1
          = (inl (ReleaseFailed (ev_name event) version), s2)) as Hrel.
  { unfold release. rewrite (bind_lift_ok _ _ _ _ Hver).
    apply bind_raise_intro. unfold freeze_wip, reraise_as.
    rewrite (bind_ok_intro _ _ _ _ _ Hwip). unfold bind. by rewrite Hfreeze. }
  by rewrite (bind_raise_intro _ _ _ _ _ Hrel).
Qed.

Lemma failed_freeze_raises_release_failed_witness :
  process_frab (env_no_release "") doc_v1 conf true store0
  = (inl (ReleaseFailed "Conf" (Some "1.0")), store0).
Proof.
  apply (failed_freeze_raises_release_failed (env_no_release "") doc_v1 conf store0 ∅
           (merge_days (env_no_release "") conf (findall "day" doc_v1) ∅ store0).2
           (Some "1.0")
           {| sched_pk := 1; sched_event := 1; sched_version := None;
              sched_published := None |}
           (merge_days (env_no_release "") conf (findall "day" doc_v1) ∅ store0).2
           (ExternalError "storage failure")).
  all: vm_compute; reflexivity.
Defined.

(** ** tasks.py: the blocks of [_create_talk] *)

(** X13: the opt-out is true exactly when the talk has a [<recording>]
    with an [<optout>] whose text is "true"; a talk without either
    element, or with any other text, is recorded as not opted out and
    raises nothing. *)
Theorem optout_of_true talk :
  optout_of talk = true ↔
  ∃ rec opt, find "recording" talk = Some rec ∧ find "optout" rec = Some opt
             ∧ text opt = Some "true".
Proof.
  unfold optout_of, find_of, text_of.
  destruct (find "recording" talk) as [rec|] eqn:Hrec; simpl.
  - destruct (find "optout" rec) as [opt|] eqn:Hopt; simpl.
    + destruct (text opt) as [x|] eqn:Htext; simpl.
      * rewrite bool_decide_eq_true. split.
        -- intros ->. by exists rec, opt.
        -- intros (rec' & opt' & [= <-] & Hopt' & Htext').
           rewrite Hopt in Hopt'. injection Hopt' as <-. congruence.
      * split; [done|]. intros (rec' & opt' & [= <-] & Hopt' & Htext').
        rewrite Hopt in Hopt'. injection Hopt' as <-. congruence.
    + split; [done|]. intros (rec' & opt' & [= <-] & Hopt' & _). congruence.
  - split; [done|]. by intros (? & ? & ? & ?).
Qed.



(** X15: the id of a talk is kept as its code when a talk of this event
    carries it, up to case, or when no talk of any event does; the guid is
    not looked at, and need not be there. *)
Theorem known_or_free_id_is_kept s ev (talk : element) (id : string) :
  attrib "id" talk = ok id →
  ((∃ sub, sub ∈ submissions s ∧ sub_event sub = ev ∧ iexact (sub_code sub) id = true)
   ∨ (∀ sub, sub ∈ submissions s → iexact (sub_code sub) id = false)) →
  resolve_code s ev talk = ok (Some id).
Proof.
  intros Hid Hfree. unfold resolve_code. rewrite Hid, rbind_ok.
  destruct Hfree as [Hmine|Hnone].
  - apply code_in_event_true in Hmine. by rewrite Hmine.
  - apply code_anywhere_false in Hnone. rewrite Hnone. by rewrite orb_true_r.
Qed.

Lemma known_or_free_id_is_kept_witness :
  resolve_code store_code_mine 1 talk_a = ok (Some "1") ∧
  resolve_code store0 1 talk_a = ok (Some "1").
Proof.
  split.
  - apply (known_or_free_id_is_kept store_code_mine 1%nat talk_a "1"); [reflexivity|].
    left. exists (taken 1 "1"). split; [apply list_elem_of_here|done].
  - apply (known_or_free_id_is_kept store0 1%nat talk_a "1"); [reflexivity|].
    right. intros sub Hsub. by apply elem_of_nil in Hsub.
Defined.

(** X16: when the id and the guid cut to 16 characters are both carried
    by talks of other events only, the talk gets no code at all. The
    lookup of line 142 is then by [code=None], which matches no row: the
    merge creates a new talk, under whatever code [Submission.save] gives
    it, every time the record is merged. *)
Theorem taken_id_and_guid_give_no_code E s ev (talk : element) (id guid : string) :
  attrib "id" talk = ok id →
  attrib "guid" talk = ok guid →
  (∃ sub, sub ∈ submissions s ∧ iexact (sub_code sub) id = true) →
  (∀ sub, sub ∈ submissions s → sub_event sub = ev → iexact (sub_code sub) id = false) →
  (∃ sub, sub ∈ submissions s ∧ iexact (sub_code sub) (str_take 16 guid) = true) →
  (∀ sub, sub ∈ submissions s → sub_event sub = ev →
          iexact (sub_code sub) (str_take 16 guid) = false) →
  resolve_code s ev talk = ok None ∧
  ∀ st, ∃ sub,
    get_or_create_submission E ev None st s
      = (inr (sub, true), with_submissions (λ l, l ++ [sub]) s) ∧
    sub_code sub = saved_code E s None ∧ sub_event sub = ev.
Proof.
  intros Hid Hguid Hid_taken Hid_not_mine Hguid_taken Hguid_not_mine. split.
  - unfold resolve_code. rewrite Hid, rbind_ok.
    apply code_in_event_false in Hid_not_mine. apply code_anywhere_true in Hid_taken.
    rewrite Hid_not_mine, Hid_taken. cbn [orb negb]. rewrite Hguid, rbind_ok.
    apply code_in_event_false in Hguid_not_mine.
    apply code_anywhere_true in Hguid_taken.
    by rewrite Hguid_not_mine, Hguid_taken.
  - intros st. unfold get_or_create_submission. rewrite bind_gets.
    destruct (filter _ (submissions s)) as [|x l] eqn:Hf.
    + run_m. eexists. split; [reflexivity|done].
    + pose proof (list_elem_of_here x l) as Hin. rewrite <-Hf in Hin.
      by apply list_elem_of_filter in Hin as [[_ ?] _].
Qed.

Lemma taken_id_and_guid_give_no_code_witness :
  resolve_code store_both_taken 1 talk_a = ok None.
Proof.
  apply (taken_id_and_guid_give_no_code (env "") store_both_taken 1%nat talk_a "1" guid1).
  - reflexivity.
  - reflexivity.
  - exists (taken 2 "1"). split; [apply list_elem_of_here|reflexivity].
  - intros sub Hsub Hev. apply elem_of_cons in Hsub as [->|Hsub]; [done|].
    apply list_elem_of_singleton in Hsub as ->. done.
  - exists (taken 2 (str_take 16 guid1)).
    split; [apply list_elem_of_further, list_elem_of_here|reflexivity].
  - intros sub Hsub Hev. apply elem_of_cons in Hsub as [->|Hsub]; [done|].
    apply list_elem_of_singleton in Hsub as ->. done.
Defined.

Lemma is_prefix_refl x : is_prefix x x = true.
Proof. induction x as [|c r IH]; simpl; [done|]. by rewrite bool_decide_eq_true_2. Qed.

Lemma icontains_refl x : icontains x x = true.
Proof.
  unfold icontains. destruct (lower x) as [|c r] eqn:Hx; simpl; [done|].
  by rewrite bool_decide_eq_true_2, is_prefix_refl.
Qed.

(** X17: a track is matched by its exact name within the event, the
    case-insensitive substring filter before it notwithstanding: the track
    a named talk ends up with carries the name of the talk, and is either
    an existing track or a new one appended when no track of the event had
    that name. Resolving the same talk again finds that track and creates
    nothing. *)
Theorem track_is_matched_by_exact_name ev (talk : element) (n : string) s t s1 :
  text_of (find "track" talk) = ok (Some n) → n ≠ "" →
  resolve_track ev talk s = (inr t, s1) →
  tr_name t = n ∧ tr_event t = ev ∧
  ((t ∈ tracks s ∧ s1 = s) ∨
   (tracks s1 = tracks s ++ [t] ∧
    ∀ t', t' ∈ tracks s → tr_event t' = ev → tr_name t' ≠ n)) ∧
  resolve_track ev talk s1 = (inr t, s1).
Proof.
  intros Hname Hn. unfold resolve_track.
  rewrite !(bind_lift_ok _ _ _ _ Hname), !bind_gets.
  destruct (filter _ (filter _ (tracks s))) as [|t0 l] eqn:Hf.
  - run_m. intros [= <- <-]. simpl.
    rewrite bool_decide_eq_false_2 by done. simpl. split_and!; try done.
    + right. split; [done|]. intros t' Hin Hev Hnm.
      assert (t' ∈ filter (λ t, tr_name t = n)
                     (filter (λ t, tr_event t = ev ∧ icontains n (tr_name t) = true)
                             (tracks s))) as Hin'.
      { apply list_elem_of_filter. split; [done|]. apply list_elem_of_filter.
        split; [|done]. split; [done|]. rewrite Hnm. apply icontains_refl. }
      rewrite Hf in Hin'. by apply elem_of_nil in Hin'.
    + rewrite !filter_app, Hf. simpl.
      rewrite (filter_cons_True (λ t, tr_event t = ev ∧ icontains n (tr_name t) = true));
        [|split; [done|apply icontains_refl]].
      by rewrite filter_cons_True.
  - intros [= <- <-]. rewrite Hf.
    pose proof (list_elem_of_here t0 l) as Hin. rewrite <-Hf in Hin.
    apply list_elem_of_filter in Hin as [Hnm Hin].
    apply list_elem_of_filter in Hin as [[Hev _] Hin].
    split_and!; try done. by left.
Qed.

Lemma track_is_matched_by_exact_name_witness :
  resolve_track 1 talk_a (resolve_track 1 talk_a store0).2
  = (inr {| tr_pk := 1; tr_event := 1; tr_name := "Main" |},
     (resolve_track 1 talk_a store0).2).
Proof.
  apply (track_is_matched_by_exact_name 1%nat talk_a "Main" store0
           {| tr_pk := 1; tr_event := 1; tr_name := "Main" |}
           (resolve_track 1 talk_a store0).2); done.
Defined.

Lemma str_take_all n x : (String.length x ≤ n)%nat → str_take n x = x.
Proof.
  revert x. induction n as [|n IH]; intros [|c r]; simpl; try done; [lia|].
  intros Hlen. rewrite IH; [done|lia].
Qed.

(** X18: a display name of at most 60 characters is resolved once: the
    person returned carries the name, and resolving the name again
    returns the same person and writes nothing. *)
Theorem short_name_is_resolved_once ev (person : element) (name : string) s u s1 :
  text person = Some name →
  (String.length name ≤ 60)%nat →
  resolve_speaker ev person s = (inr u, s1) →
  user_name u = name ∧ resolve_speaker ev person s1 = (inr u, s1).
Proof.
  intros Hname Hlen. unfold resolve_speaker. rewrite Hname, !bind_gets.
  rewrite (str_take_all 60 name Hlen).
  destruct (filter _ (users s)) as [|u0 l] eqn:Hf; simpl.
  - rewrite !bind_gets. destruct (email_taken s _); [done|].
    run_m. intros [= <- <-]. simpl. split; [done|].
    rewrite filter_app, Hf. simpl. by rewrite filter_cons_True.
  - intros [= <- <-]. rewrite Hf. simpl. split; [|done].
    pose proof (list_elem_of_here u0 l) as Hin. rewrite <-Hf in Hin.
    by apply list_elem_of_filter in Hin as [? _].
Qed.

Lemma short_name_is_resolved_once_witness :
  user_name {| user_pk := 1; user_name := "Ada"; user_email := "Ada@localhost" |} = "Ada" ∧
  resolve_speaker 1 ada (resolve_speaker 1 ada store0).2
  = (inr {| user_pk := 1; user_name := "Ada"; user_email := "Ada@localhost" |},
     (resolve_speaker 1 ada store0).2).
Proof.
  apply (short_name_is_resolved_once 1%nat ada "Ada" store0
           {| user_pk := 1; user_name := "Ada"; user_email := "Ada@localhost" |}
           (resolve_speaker 1 ada store0).2).
  - reflexivity.
  - vm_compute. lia.
  - reflexivity.
Defined.

(** ** tasks.py: speakers are only added *)

Lemma gains_speakers_refl x : gains_speakers x x.
Proof. unfold gains_speakers. by split_and!. Qed.

Lemma gains_speakers_trans x y z :
  gains_speakers x y → gains_speakers y z → gains_speakers x z.
Proof.
  intros (H1 & H2 & H3 & H4 & H5) (H1' & H2' & H3' & H4' & H5').
  unfold gains_speakers. split_and!; [congruence..| |by etrans].
  intros f. etrans; [apply H4'|apply H4].
Qed.

Lemma resolve_speaker_submissions ev person s :
  submissions (resolve_speaker ev person s).2 = submissions s.
Proof.
  unfold resolve_speaker. destruct (text person); [|done].
  rewrite bind_gets. destruct (head _); [done|].
  rewrite !bind_gets. by destruct (email_taken s _).
Qed.

Lemma add_speakers_gains ev sub persons : ∀ s,
  ∃ g, submissions (add_speakers ev sub persons s).2 = g <$> submissions s
       ∧ ∀ x, gains_speakers x (g x).
Proof.
  induction persons as [|p rest IH]; intros s; simpl.
  - exists id. split; [by rewrite list_fmap_id|]. apply gains_speakers_refl.
  - unfold bind at 1. pose proof (resolve_speaker_submissions ev p s) as Hsubs.
    destruct (resolve_speaker ev p s) as [[e|u] s1]; simpl in Hsubs.
    + exists id. simpl. split; [by rewrite list_fmap_id|]. apply gains_speakers_refl.
    + unfold add_speaker. rewrite bind_modify.
      destruct (IH (with_submissions
                      (fmap (λ x, if decide (sub_pk x = sub)
                                  then {| sub_pk := sub_pk x; sub_event := sub_event x;
                                          sub_code := sub_code x;
                                          sub_submission_type := sub_submission_type x;
                                          sub_track := sub_track x;
                                          sub_title := sub_title x;
                                          sub_description := sub_description x;
                                          sub_abstract := sub_abstract x;
                                          sub_content_locale := sub_content_locale x;
                                          sub_do_not_record := sub_do_not_record x;
                                          sub_speakers := {[user_pk u]} ∪ sub_speakers x |}
                                  else x)) s1)) as (g & Hg & Hgains).
      eexists (g ∘ _). rewrite Hg. simpl. rewrite Hsubs, <-list_fmap_compose.
      split; [reflexivity|].
      intros x. eapply gains_speakers_trans; [|apply Hgains].
      destruct (decide (sub_pk x = sub)); [|apply gains_speakers_refl].
      unfold gains_speakers; simpl. split_and!; try done.
      all: first [ apply union_subseteq_r | by intros [] ].
Qed.

(** X19: the loop over the persons of a talk (lines 169-175), however far
    it gets, leaves every talk the row it was, with the speakers it had
    and possibly more: no speaker is ever removed and no field of a talk
    is touched. *)
Theorem speakers_are_only_added ev sub persons s :
  Forall2 gains_speakers (submissions s) (submissions (add_speakers ev sub persons s).2).
Proof.
  destruct (add_speakers_gains ev sub persons s) as (g & -> & Hgains).
  apply Forall2_fmap_r, Forall_Forall2_diag, Forall_forall. intros x _. apply Hgains.
Qed.

(** ** tasks.py: the tracked fields after the loop *)

Lemma py_eq_refl v : py_eq v v = true.
Proof.
  destruct v; simpl; try done; try apply Z.eqb_refl; by apply bool_decide_eq_true.
Qed.

Lemma foldl_track_field_getattr data : ∀ changes sub f,
  NoDup data.*1 →
  getattr (foldl track_field (changes, sub) data).2 f =
    match entry_of (field_name f) data with
    | Some (_, v) => if py_eq (getattr sub f) v then getattr sub f else v
    | None => getattr sub f
    end.
Proof.
  induction data as [|[k v] rest IH]; intros changes sub f Hnd; [done|].
  apply NoDup_cons in Hnd as [Hk Hnd]. simpl in Hk.
  unfold entry_of. simpl foldl. rewrite filter_cons. simpl.
  destruct (decide (field_name k = field_name f)) as [Heq|Hne]; simpl.
  - apply field_name_inj in Heq as ->.
    assert (entry_of (field_name f) rest = None) as Hrest.
    { apply head_filter_None. intros [g w] Hin Heq%field_name_inj.
      simpl in Heq. subst g. apply Hk, list_elem_of_fmap. by exists (f, w). }
    destruct (py_eq (getattr sub f) v); simpl; rewrite IH, Hrest by done;
      [done|apply getattr_setattr_eq].
  - fold (entry_of (field_name f) rest).
    assert (k ≠ f) as Hkf by congruence.
    destruct (py_eq (getattr sub k) v); simpl; rewrite IH by done; [done|].
    by rewrite getattr_setattr_ne.
Qed.

(** X20: after the loop of lines 162-165 every tracked field of the talk
    holds (a value equal to) its new value, so that running the loop again
    with the same values records no change. *)
Theorem tracked_fields_settle sub data :
  NoDup data.*1 →
  (∀ f v, (f, v) ∈ data → py_eq (getattr (track_changes sub data).2 f) v = true) ∧
  (track_changes (track_changes sub data).2 data).1 = ∅.
Proof.
  intros Hnd.
  assert (∀ f v, (f, v) ∈ data →
                 py_eq (getattr (track_changes sub data).2 f) v = true) as Hset.
  { intros f v Hin. unfold track_changes.
    rewrite foldl_track_field_getattr, (entry_of_elem _ _ _ Hnd Hin) by done.
    destruct (py_eq (getattr sub f) v) eqn:Heq; [done|apply py_eq_refl]. }
  split; [done|]. by apply track_changes_empty.
Qed.

Lemma tracked_fields_settle_witness :
  (track_changes (track_changes (taken 1 "1") data_b).2 data_b).1 = ∅.
Proof.
  apply (tracked_fields_settle (taken 1 "1") data_b).
  by apply (bool_decide_unpack _).
Defined.

(** ** signals.py: the navigation entry *)

(** X21: the settings navigation is offered nothing by a user without the
    permission to change settings, and otherwise exactly one entry, which
    links to the settings view of the event and is marked active exactly
    when the name of the resolved URL is that of this view. *)
Theorem settings_entry_needs_permission reverse has_perm slug url_name :
  (has_perm = false → register_upstream_settings reverse has_perm slug url_name = []) ∧
  (has_perm = true →
   ∃ entry, register_upstream_settings reverse has_perm slug url_name = [entry] ∧
            nav_url entry = reverse settings_view slug ∧
            (nav_active entry = true ↔ url_name = PyStr settings_view)).
Proof.
  split; intros ->; [done|]. eexists. split; [reflexivity|]. split; [done|]. simpl.
  destruct url_name; simpl; try (split; [done|by intros [=]]).
  rewrite bool_decide_eq_true. split; [by intros ->|by intros [= ->]].
Qed.

(** ** tasks.py: rooms and slots *)

(** X22: a room is found by its exact name within the event and created
    when no room of the event has that name; the room returned carries the
    event and the name, and asking again returns the same room and writes
    nothing. *)
Theorem room_is_got_or_created_once ev name s r s1 :
  get_or_create_room ev name s = (inr r, s1) →
  room_event r = ev ∧ room_name r = name ∧
  ((r ∈ rooms s ∧ s1 = s) ∨ rooms s1 = rooms s ++ [r]) ∧
  get_or_create_room ev name s1 = (inr r, s1).
Proof.
  unfold get_or_create_room. rewrite !bind_gets.
  destruct (filter _ (rooms s)) as [|r0 [|r1 l]] eqn:Hf; [| |done].
  - run_m. intros [= <- <-]. simpl. split_and!; try done; [by right|].
    rewrite filter_app, Hf. simpl. by rewrite filter_cons_True.
  - intros [= <- <-]. rewrite Hf.
    pose proof (list_elem_of_here r0 []) as Hin. rewrite <-Hf in Hin.
    apply list_elem_of_filter in Hin as [[Hev Hname] Hin].
    split_and!; try done. by left.
Qed.

Lemma room_is_got_or_created_once_witness :
  get_or_create_room 1 "Hall" (get_or_create_room 1 "Hall" store0).2
  = (inr hall, (get_or_create_room 1 "Hall" store0).2).
Proof.
  apply (room_is_got_or_created_once 1%nat "Hall" store0 hall
           (get_or_create_room 1 "Hall" store0).2).
  reflexivity.
Defined.

Lemma wip_schedule_inv ev s wip s1 :
  wip_schedule ev s = (inr wip, s1) →
  wip ∈ schedules s1 ∧ sched_event wip = ev ∧ sched_version wip = None ∧
  slots s1 = slots s.
Proof.
  unfold wip_schedule. rewrite bind_gets.
  destruct (filter _ (schedules s)) as [|x [|y l]] eqn:Hf; [| |done].
  - run_m. intros [= <- <-]. simpl. split_and!; try done.
    apply elem_of_app. right. apply list_elem_of_here.
  - intros [= <- <-]. pose proof (list_elem_of_here x []) as Hin.
    rewrite <-Hf in Hin. by apply list_elem_of_filter in Hin as [[? ?] ?].
Qed.

Lemma get_or_create_slot_inv sub sch s sl s1 :
  get_or_create_slot sub sch s = (inr sl, s1) →
  sl ∈ slots s1 ∧ slot_submission sl = sub ∧ slot_schedule sl = sch ∧
  schedules s1 = schedules s.
Proof.
  unfold get_or_create_slot. rewrite bind_gets.
  destruct (filter _ (slots s)) as [|x [|y l]] eqn:Hf; [| |done].
  - run_m. intros [= <- <-]. simpl. split_and!; try done.
    apply elem_of_app. right. apply list_elem_of_here.
  - intros [= <- <-]. pose proof (list_elem_of_here x []) as Hin.
    rewrite <-Hf in Hin. by apply list_elem_of_filter in Hin as [[? ?] ?].
Qed.

(** X23: after the slot of a talk was written (lines 177-184), the
    working schedule of the event holds a slot of the talk that is
    visible, in the room of the record, with the start and the end that
    were computed, whether the slot was there before or not. *)
Theorem slot_is_upserted ev sub room start end_ s s' :
  upsert_slot ev sub room start end_ s = (inr tt, s') →
  ∃ wip sl,
    wip ∈ schedules s' ∧ sched_event wip = ev ∧ sched_version wip = None ∧
    sl ∈ slots s' ∧ slot_schedule sl = sched_pk wip ∧ slot_submission sl = sub ∧
    slot_room sl = Some room ∧ slot_is_visible sl = true ∧
    slot_start sl = Some start ∧ slot_end sl = Some end_.
Proof.
  unfold upsert_slot. intros H.
  apply bind_ok_inv in H as (wip & s1 & Hwip & H).
  apply bind_ok_inv in H as (sl & s2 & Hslot & H).
  injection H as <-.
  apply wip_schedule_inv in Hwip as (Hin & Hev & Hver & _).
  apply get_or_create_slot_inv in Hslot as (Hsl & Hsub & Hsch & Hschedules).
  exists wip,
    {| slot_pk := slot_pk sl; slot_submission := slot_submission sl;
       slot_schedule := slot_schedule sl; slot_room := Some room;
       slot_is_visible := true; slot_start := Some start; slot_end := Some end_ |}.
  simpl. rewrite Hschedules. split_and!; try done.
  apply list_elem_of_fmap. exists sl. split; [|done]. by rewrite decide_True.
Qed.

Lemma slot_is_upserted_witness :
  ∃ wip sl,
    wip ∈ schedules (upsert_slot 1 1 1 10 20 store0).2 ∧
    sched_event wip = 1%nat ∧ sched_version wip = None ∧
    sl ∈ slots (upsert_slot 1 1 1 10 20 store0).2 ∧
    slot_schedule sl = sched_pk wip ∧ slot_submission sl = 1%nat ∧
    slot_room sl = Some 1%nat ∧ slot_is_visible sl = true ∧
    slot_start sl = Some 10 ∧ slot_end sl = Some 20.
Proof.
  apply (slot_is_upserted 1%nat 1%nat 1%nat 10 20 store0
           (upsert_slot 1 1 1 10 20 store0).2).
  reflexivity.
Defined.
